(** * Shallow embedding of the tenzro regional node coordination engine

    - [ValidatorSystem.ts]: task lifecycle and reward settlement;
    - [GlobalNodeCoordinator.ts]: global validator health and failover;
    - [signalingServer.ts]: the join handshake;
    - [network/DHTNetwork.ts]: local store and replication.

    JavaScript numbers are modelled as rationals [Q] (the claims are about
    exact arithmetic identities), except the rewards computed from task data,
    which may be [NaN] or infinite and are modelled as [JSNum]; wall-clock
    instants are rationals counting seconds.  A JS [Map] is modelled as an insertion-ordered association list
    ([JSMap]), since several operations depend on iteration order. *)

From Stdlib Require Import List String QArith Qminmax Bool Arith Lia Lqa.
Import ListNotations.

Open Scope Q_scope.

(** ** JavaScript [Map] with string keys *)
Module JSMap.

Definition t (V : Type) := list (string * V).

Fixpoint get {V} (k : string) (m : t V) : option V :=
  match m with
  | [] => None
  | (k', v) :: m' => if String.eqb k k' then Some v else get k m'
  end.

(** [Map.prototype.set]: update in place when present, else append. *)
Fixpoint set {V} (k : string) (v : V) (m : t V) : t V :=
  match m with
  | [] => [(k, v)]
  | (k', v') :: m' => if String.eqb k k' then (k', v) :: m' else (k', v') :: set k v m'
  end.

Fixpoint delete {V} (k : string) (m : t V) : t V :=
  match m with
  | [] => []
  | (k', v') :: m' => if String.eqb k k' then delete k m' else (k', v') :: delete k m'
  end.

Definition has {V} (k : string) (m : t V) : bool :=
  match get k m with Some _ => true | None => false end.

Definition keys {V} (m : t V) : list string := map fst m.
Definition values {V} (m : t V) : list V := map snd m.
Definition size {V} (m : t V) : nat := List.length m.

End JSMap.

(** Strict comparison [a < b] on numbers. *)
Definition Qlt_bool (a b : Q) : bool := negb (Qle_bool b a).

(** ** JavaScript numbers that can leave the rationals

    Task fields arrive as finite numbers and stay [Q]; the reward arithmetic
    of [handleTaskCompletion] and [finalizeTask] divides by task data, so its
    results are IEEE doubles that may be [NaN] or infinite.  [JSNum] keeps
    those cases (a negative zero is identified with zero: they compare equal
    and are both falsy). *)
Inductive JSNum := num (q : Q) | NaN | Infinity | NegInfinity.

(** [Infinity] with the sign of [q] ([pos]) or the opposite one. *)
Definition signed_inf (pos : bool) (q : Q) : JSNum :=
  match Qcompare q 0 with
  | Eq => NaN
  | Gt => if pos then Infinity else NegInfinity
  | Lt => if pos then NegInfinity else Infinity
  end.

Definition js_neg (a : JSNum) : JSNum :=
  match a with
  | num x => num (- x)
  | NaN => NaN
  | Infinity => NegInfinity
  | NegInfinity => Infinity
  end.

Definition js_add (a b : JSNum) : JSNum :=
  match a, b with
  | NaN, _ | _, NaN => NaN
  | num x, num y => num (x + y)
  | Infinity, NegInfinity | NegInfinity, Infinity => NaN
  | Infinity, _ | _, Infinity => Infinity
  | NegInfinity, _ | _, NegInfinity => NegInfinity
  end.

Definition js_sub (a b : JSNum) : JSNum := js_add a (js_neg b).

Definition js_mul (a b : JSNum) : JSNum :=
  match a, b with
  | NaN, _ | _, NaN => NaN
  | num x, num y => num (x * y)
  | Infinity, num y | num y, Infinity => signed_inf true y
  | NegInfinity, num y | num y, NegInfinity => signed_inf false y
  | Infinity, Infinity | NegInfinity, NegInfinity => Infinity
  | Infinity, NegInfinity | NegInfinity, Infinity => NegInfinity
  end.

(** [x / y] on finite operands: [x / 0] is [NaN] for [x = 0] and an infinity
    with the sign of [x] otherwise. *)
Definition js_div_q (x y : Q) : JSNum :=
  if Qeq_bool y 0 then signed_inf true x else num (x / y).

(** [Math.min(a, b)]. *)
Definition js_min (a b : JSNum) : JSNum :=
  match a, b with
  | NaN, _ | _, NaN => NaN
  | num x, num y => num (Qmin x y)
  | NegInfinity, _ | _, NegInfinity => NegInfinity
  | Infinity, y | y, Infinity => y
  end.

(** Strict equality [a === b]: [NaN] equals nothing. *)
Definition js_eqb (a b : JSNum) : bool :=
  match a, b with
  | num x, num y => Qeq_bool x y
  | Infinity, Infinity | NegInfinity, NegInfinity => true
  | _, _ => false
  end.

(** Truthiness: [0] and [NaN] are falsy. *)
Definition js_truthy (a : JSNum) : bool :=
  match a with
  | num x => negb (Qeq_bool x 0)
  | NaN => false
  | Infinity | NegInfinity => true
  end.

(** ** Data model ([types.ts]) *)

Inductive NodeType := individual | regional_node | global_node.
Inductive NodeTier := inference | aggregator | training | feedback.

Definition NodeTier_eqb (a b : NodeTier) : bool :=
  match a, b with
  | inference, inference | aggregator, aggregator
  | training, training | feedback, feedback => true
  | _, _ => false
  end.

Definition NodeType_eqb (a b : NodeType) : bool :=
  match a, b with
  | individual, individual | regional_node, regional_node
  | global_node, global_node => true
  | _, _ => false
  end.

(** [Array.prototype.includes] on tiers and on peer ids. *)
Definition tier_in (t : NodeTier) (l : list NodeTier) : bool := existsb (NodeTier_eqb t) l.
Definition includes (x : string) (l : list string) : bool := existsb (String.eqb x) l.

Inductive TaskType :=
  tt_compute | tt_train | tt_process | tt_aggregate | tt_store
| tt_validate | tt_verify | tt_dispute | tt_report | tt_update.

Inductive TaskState := pending | assigned | accepted | processing | completed | failed.

Definition TaskState_eqb (a b : TaskState) : bool :=
  match a, b with
  | pending, pending | assigned, assigned | accepted, accepted
  | processing, processing | completed, completed | failed, failed => true
  | _, _ => false
  end.

Record ResourceStats := { cpu : Q; memory : Q; storage : Q; bandwidth : Q }.

Record PeerInfo := {
  peerId : string;
  nodeType : NodeType;
  nodeTier : NodeTier;
  region : string;
  tokenBalance : Q
}.

(** The [status] record of a [ConnectedPeer] (also [NodeStatus]). *)
Record NodeStatus := {
  online : bool;
  resources : ResourceStats;
  ns_activeTasks : Q;
  ns_completedTasks : Q
}.

(** A [ConnectedPeer]: [ws_open] is [ws.readyState === OPEN]. *)
Record ConnectedPeer := {
  ws_open : bool;
  info : PeerInfo;
  cp_status : NodeStatus
}.

Record TaskRequirements := {
  minTier : NodeTier;
  minStorage : option Q;
  minMemory : option Q;
  gpuRequired : bool;
  estimatedDuration : Q;
  maxNodes : nat
}.

Record TaskReward := {
  total : Q;
  perNode : Q;
  validatorShare : Q;
  penaltyRate : Q
}.

Record TaskStatus := {
  state : TaskState;
  assignedNodes : list string;
  acceptedNodes : list string;
  startTime : option Q;
  completionTime : option Q;
  error : option string
}.

Record Task := {
  taskId : string;
  type : TaskType;
  requirements : TaskRequirements;
  reward : TaskReward;
  status : TaskStatus;
  submitter : string
}.

Definition with_status (t : Task) (s : TaskStatus) : Task :=
  {| taskId := taskId t; type := type t; requirements := requirements t;
     reward := reward t; status := s; submitter := submitter t |}.

Definition with_reward (t : Task) (r : TaskReward) : Task :=
  {| taskId := taskId t; type := type t; requirements := requirements t;
     reward := r; status := status t; submitter := submitter t |}.

Definition mk_status st asg acc start compl err : TaskStatus :=
  {| state := st; assignedNodes := asg; acceptedNodes := acc;
     startTime := start; completionTime := compl; error := err |}.

(** [TASK_TIER_REQUIREMENTS] *)
Record TierPolicy := { tiers : list NodeTier; minReward : Q; policyShare : Q }.

Definition TASK_TIER_REQUIREMENTS (ty : TaskType) : TierPolicy :=
  match ty with
  | tt_compute => {| tiers := [training; feedback]; minReward := 100; policyShare := 10 |}
  | tt_train => {| tiers := [training; feedback]; minReward := 100; policyShare := 10 |}
  | tt_process => {| tiers := [aggregator; training; feedback]; minReward := 50; policyShare := 10 |}
  | tt_aggregate => {| tiers := [aggregator; training; feedback]; minReward := 50; policyShare := 10 |}
  | tt_store => {| tiers := [inference; aggregator; training; feedback]; minReward := 20; policyShare := 5 |}
  | tt_validate => {| tiers := [aggregator; training; feedback]; minReward := 50; policyShare := 10 |}
  | tt_verify => {| tiers := [training; feedback]; minReward := 75; policyShare := 10 |}
  | tt_dispute => {| tiers := [feedback]; minReward := 100; policyShare := 15 |}
  | tt_report => {| tiers := [aggregator; training; feedback]; minReward := 30; policyShare := 5 |}
  | tt_update => {| tiers := [training; feedback]; minReward := 50; policyShare := 10 |}
  end.

(** [config.env.tasks] and [config.env.validator] *)
Record TasksConfig := {
  maxTaskDuration : Q;
  minTaskDuration : Q;
  maxNodesPerTask : nat
}.

Record ValidatorConfig := {
  regionalTokenRequirement : Q;
  globalTokenRequirement : Q
}.

(** The defaults of [config.ts]. *)
Definition default_tasks_config : TasksConfig :=
  {| maxTaskDuration := 86400; minTaskDuration := 60; maxNodesPerTask := 100 |}.

Definition default_validator_config : ValidatorConfig :=
  {| regionalTokenRequirement := 1000; globalTokenRequirement := 5000 |}.

(** Messages the engines push to peers ([SignalingMessage] cases used here). *)
Inductive Message :=
| m_task_broadcast (t : Task)
| m_task_assignment (t : Task)
| m_reward_distribution (tid : string) (amount : JSNum)
| m_error (msg : string)
| m_network_state
| m_peer_joined (p : PeerInfo)
| m_task_reassignment (t : string) (globalValidator : string)
    (backupValidators : list string) (previousNode : option string)
| m_global_node_failover (failed backup : string) (affected : list string).

(** ** [ValidatorSystem.ts] *)
Module ValidatorSystem.

(** The fields of a [ValidatorSystem] instance; [taskTimeouts] records which
    tasks have an armed timeout timer. *)
Record State := {
  globalValidators : JSMap.t ConnectedPeer;
  regionalValidators : JSMap.t (JSMap.t ConnectedPeer);
  individualNodes : JSMap.t (JSMap.t ConnectedPeer);
  activeTasks : JSMap.t Task;
  taskTimeouts : JSMap.t unit;
  rewardDistributions : JSMap.t (JSMap.t JSNum)
}.

Definition empty_state : State :=
  {| globalValidators := []; regionalValidators := []; individualNodes := [];
     activeTasks := []; taskTimeouts := []; rewardDistributions := [] |}.

Definition set_activeTasks (s : State) (m : JSMap.t Task) : State :=
  {| globalValidators := globalValidators s; regionalValidators := regionalValidators s;
     individualNodes := individualNodes s; activeTasks := m;
     taskTimeouts := taskTimeouts s; rewardDistributions := rewardDistributions s |}.

Definition set_taskTimeouts (s : State) (m : JSMap.t unit) : State :=
  {| globalValidators := globalValidators s; regionalValidators := regionalValidators s;
     individualNodes := individualNodes s; activeTasks := activeTasks s;
     taskTimeouts := m; rewardDistributions := rewardDistributions s |}.

Definition set_rewardDistributions (s : State) (m : JSMap.t (JSMap.t JSNum)) : State :=
  {| globalValidators := globalValidators s; regionalValidators := regionalValidators s;
     individualNodes := individualNodes s; activeTasks := activeTasks s;
     taskTimeouts := taskTimeouts s; rewardDistributions := m |}.

Definition set_pools (s : State) g r i : State :=
  {| globalValidators := g; regionalValidators := r; individualNodes := i;
     activeTasks := activeTasks s; taskTimeouts := taskTimeouts s;
     rewardDistributions := rewardDistributions s |}.

(** Result of an [async] method: the exception it throws (if any), the state
    it leaves behind (mutations done before a throw persist), and the
    messages [forwardMessage] wrote to open sockets, as (peer id, message). *)
Record Run := { thrown : option string; final : State; sent : list (string * Message) }.

Definition ret (s : State) (out : list (string * Message)) : Run :=
  {| thrown := None; final := s; sent := out |}.

(** [forwardMessage]: sends only when the socket is open. *)
Definition forwardMessage (p : ConnectedPeer) (m : Message) : list (string * Message) :=
  if ws_open p then [(peerId (info p), m)] else [].

Definition addNode (s : State) (p : ConnectedPeer) : State :=
  let r := region (info p) in
  let rv := if JSMap.has r (regionalValidators s) then regionalValidators s
            else JSMap.set r [] (regionalValidators s) in
  let iv := if JSMap.has r (individualNodes s) then individualNodes s
            else JSMap.set r [] (individualNodes s) in
  let pid := peerId (info p) in
  match nodeType (info p) with
  | global_node => set_pools s (JSMap.set pid p (globalValidators s)) rv iv
  | regional_node =>
      let m := match JSMap.get r rv with Some m => m | None => [] end in
      set_pools s (globalValidators s) (JSMap.set r (JSMap.set pid p m) rv) iv
  | individual =>
      let m := match JSMap.get r iv with Some m => m | None => [] end in
      set_pools s (globalValidators s) rv (JSMap.set r (JSMap.set pid p m) iv)
  end.

Section WithConfig.

Variable cfg : TasksConfig.

Definition validateTaskRequirements (t : Task) : bool :=
  let tierReqs := TASK_TIER_REQUIREMENTS (type t) in
  tier_in (minTier (requirements t)) (tiers tierReqs) &&
  Qle_bool (minReward tierReqs) (total (reward t)) &&
  Qeq_bool (validatorShare (reward t)) (policyShare tierReqs) &&
  Qle_bool (minTaskDuration cfg) (estimatedDuration (requirements t)) &&
  Qle_bool (estimatedDuration (requirements t)) (maxTaskDuration cfg) &&
  Nat.leb (maxNodes (requirements t)) (maxNodesPerTask cfg).

(** [selectRegionalValidator]: first element after a stable sort by fewest
    active tasks, then most completed tasks. *)
Definition better (a b : ConnectedPeer) : bool :=
  let d := ns_activeTasks (cp_status a) - ns_activeTasks (cp_status b) in
  if negb (Qeq_bool d 0) then Qlt_bool d 0
  else Qlt_bool (ns_completedTasks (cp_status b) - ns_completedTasks (cp_status a)) 0.

Definition selectRegionalValidator (vs : list ConnectedPeer) : option ConnectedPeer :=
  match vs with
  | [] => None
  | v :: rest => Some (fold_left (fun b x => if better x b then x else b) rest v)
  end.

Definition setupTaskTimeout (s : State) (t : Task) : State :=
  set_taskTimeouts s (JSMap.set (taskId t) tt (taskTimeouts s)).

Definition broadcastTask (s : State) (t : Task) (sourceGlobalValidator : string) : Run :=
  if negb (validateTaskRequirements t) then
    {| thrown := Some "Invalid task requirements"%string; final := s; sent := [] |}
  else
    let s1 := set_activeTasks s (JSMap.set (taskId t) t (activeTasks s)) in
    let s2 := setupTaskTimeout s1 t in
    let out := flat_map (fun '(_, validators) =>
                 let eligible := filter (fun v => online (cp_status v))
                                   (JSMap.values validators) in
                 match selectRegionalValidator eligible with
                 | Some v => forwardMessage v (m_task_broadcast t)
                 | None => []
                 end) (regionalValidators s2) in
    ret s2 out.

Definition getMaxTasksForTier (tier : NodeTier) : Q :=
  match tier with
  | inference => 5 | aggregator => 10 | training => 15 | feedback => 20
  end.

(** [requirements.minStorage && resources.storage < minStorage]: an absent or
    zero floor is falsy and imposes nothing. *)
Definition below_floor (floor : option Q) (have : Q) : bool :=
  match floor with
  | Some f => negb (Qeq_bool f 0) && Qlt_bool have f
  | None => false
  end.

Definition isNodeEligibleForTask (node : ConnectedPeer) (t : Task) : bool :=
  let tier := nodeTier (info node) in
  let req := requirements t in
  let res := resources (cp_status node) in
  if negb (tier_in tier (tiers (TASK_TIER_REQUIREMENTS (type t)))) then false
  else if below_floor (minStorage req) (storage res) then false
  else if below_floor (minMemory req) (memory res) then false
  else if gpuRequired req && negb (tier_in tier [training; feedback]) then false
  else if Qle_bool (getMaxTasksForTier tier) (ns_activeTasks (cp_status node)) then false
  else true.

Definition calculateNodeReward (t : Task) (nodeCount : nat) : Q :=
  let totalNodeReward := total (reward t) * (1 - validatorShare (reward t) / 100) in
  totalNodeReward / inject_Z (Z.of_nat nodeCount).

Definition handleRegionalTaskDistribution (s : State) (t : Task) (rg : string)
    (sourceValidator : string) : Run :=
  match JSMap.get rg (individualNodes s) with
  | None => ret s []
  | Some nodes =>
      let eligibleNodes := firstn (maxNodes (requirements t))
                             (filter (fun n => isNodeEligibleForTask n t) (JSMap.values nodes)) in
      match eligibleNodes with
      | [] => ret s []
      | _ =>
          let rewardPerNode := calculateNodeReward t (List.length eligibleNodes) in
          let st := status t in
          let out := flat_map (fun n =>
                forwardMessage n (m_task_assignment
                  (with_status
                     (with_reward t {| total := total (reward t); perNode := rewardPerNode;
                                       validatorShare := validatorShare (reward t);
                                       penaltyRate := penaltyRate (reward t) |})
                     (mk_status (state st) (assignedNodes st ++ [peerId (info n)])
                        (acceptedNodes st) (startTime st) (completionTime st) (error st)))))
                eligibleNodes in
          let t' := with_status t
                      (mk_status (state st)
                         (assignedNodes st ++ map (fun n => peerId (info n)) eligibleNodes)
                         (acceptedNodes st) (startTime st) (completionTime st) (error st)) in
          ret (set_activeTasks s (JSMap.set (taskId t) t' (activeTasks s))) out
      end
  end.

Definition handleTaskAcceptance (s : State) (tid pid : string) (now : Q) : Run :=
  match JSMap.get tid (activeTasks s) with
  | None => ret s []
  | Some t =>
      let st := status t in
      let acc := acceptedNodes st ++ [pid] in
      let st' := match startTime st with
                 | None => mk_status processing (assignedNodes st) acc (Some now)
                             (completionTime st) (error st)
                 | Some _ => mk_status (state st) (assignedNodes st) acc (startTime st)
                               (completionTime st) (error st)
                 end in
      let s1 := set_activeTasks s (JSMap.set tid (with_status t st') (activeTasks s)) in
      let s2 := if JSMap.has tid (rewardDistributions s1) then s1
                else set_rewardDistributions s1 (JSMap.set tid [] (rewardDistributions s1)) in
      ret s2 []
  end.

(** The reward computed at [handleTaskCompletion] for a report at [now].
    Without a [startTime] the duration is [NaN] and [NaN > e] is false. *)
Definition completionReward (t : Task) (now : Q) : JSNum :=
  let p := num (perNode (reward t)) in
  let e := estimatedDuration (requirements t) in
  match startTime (status t) with
  | None => p
  | Some start =>
      let duration := now - start in
      if Qlt_bool e duration then
        let penalty := js_mul (js_div_q (duration - e) e) (num (penaltyRate (reward t))) in
        js_mul p (js_sub (num 1) (js_min penalty (num 1)))
      else p
  end.

Definition findPeer (s : State) (pid : string) : option ConnectedPeer :=
  match JSMap.get pid (globalValidators s) with
  | Some p => Some p
  | None =>
      let byId := fun p : ConnectedPeer => String.eqb (peerId (info p)) pid in
      match find byId (flat_map JSMap.values (JSMap.values (regionalValidators s))) with
      | Some p => Some p
      | None => find byId (flat_map JSMap.values (JSMap.values (individualNodes s)))
      end
  end.

Definition getRegionalValidatorForNode (s : State) (rg : string) : option ConnectedPeer :=
  match JSMap.get rg (regionalValidators s) with
  | None => None
  | Some vs => hd_error (JSMap.values vs)
  end.

(** [getTaskValidators].  The source tests [validators.includes(v)] by object
    identity; the regional validator object for a region is the first entry of
    that region's map, so identity is identity of the region it was drawn
    from, and it is never the global validator object. *)
Definition getTaskValidators (s : State) (t : Task) : list ConnectedPeer :=
  let init := match JSMap.get (submitter t) (globalValidators s) with
              | Some g => [g] | None => [] end in
  let '(vs, _) :=
    fold_left (fun '(vs, seen) nodeId =>
      match findPeer s nodeId with
      | Some np =>
          let rg := region (info np) in
          match getRegionalValidatorForNode s rg with
          | Some rv => if includes rg seen then (vs, seen) else (vs ++ [rv], seen ++ [rg])
          | None => (vs, seen)
          end
      | None => (vs, seen)
      end) (assignedNodes (status t)) (init, []) in
  vs.

Definition cleanupTask (s : State) (tid : string) : State :=
  set_rewardDistributions (set_taskTimeouts s (JSMap.delete tid (taskTimeouts s)))
    (JSMap.delete tid (rewardDistributions s)).

(** The per-task reward map after the validator shares are written into it. *)
Definition finalRewards (s : State) (t : Task) (taskRewards : JSMap.t JSNum) : JSMap.t JSNum :=
  let validatorReward := total (reward t) * (validatorShare (reward t) / 100) in
  let validators := getTaskValidators s t in
  let share := js_div_q validatorReward (inject_Z (Z.of_nat (List.length validators))) in
  fold_left (fun m v => JSMap.set (peerId (info v)) share m) validators taskRewards.

Definition finalizeTask (s : State) (t : Task) (completionTime : Q) : Run :=
  let st := status t in
  let t' := with_status t (mk_status completed (assignedNodes st) (acceptedNodes st)
                             (startTime st) (Some completionTime) (error st)) in
  let s1 := set_activeTasks s (JSMap.set (taskId t) t' (activeTasks s)) in
  let taskRewards := match JSMap.get (taskId t) (rewardDistributions s1) with
                     | Some m => m | None => [] end in
  let m' := finalRewards s1 t' taskRewards in
  let s2 := set_rewardDistributions s1 (JSMap.set (taskId t) m' (rewardDistributions s1)) in
  let out := flat_map (fun '(pid, r) =>
               match findPeer s2 pid with
               | Some p => forwardMessage p (m_reward_distribution (taskId t) r)
               | None => []
               end) m' in
  ret (cleanupTask s2 (taskId t)) out.

(** First half of [handleTaskCompletion]: compute and store the reward.
    [None] is the [TypeError] of [rewardDistributions.get(taskId)!.set]. *)
Definition recordCompletion (s : State) (t : Task) (pid : string) (now : Q)
  : option (State * JSMap.t JSNum) :=
  match JSMap.get (taskId t) (rewardDistributions s) with
  | None => None
  | Some taskRewards =>
      let m' := JSMap.set pid (completionReward t now) taskRewards in
      Some (set_rewardDistributions s (JSMap.set (taskId t) m' (rewardDistributions s)), m')
  end.

Definition handleTaskCompletion (s : State) (tid pid : string) (now : Q) : Run :=
  match JSMap.get tid (activeTasks s) with
  | None => ret s []
  | Some t =>
      match recordCompletion s t pid now with
      | None => {| thrown := Some "TypeError"%string; final := s; sent := [] |}
      | Some (s1, taskRewards) =>
          if Nat.eqb (JSMap.size taskRewards) (List.length (acceptedNodes (status t)))
          then finalizeTask s1 t now
          else ret s1 []
      end
  end.

Definition handleTaskTimeout (s : State) (tid : string) : State :=
  match JSMap.get tid (activeTasks s) with
  | None => s
  | Some t =>
      if negb (TaskState_eqb (state (status t)) pending) then s
      else
        let st := status t in
        let t' := with_status t (mk_status failed (assignedNodes st) (acceptedNodes st)
                    (startTime st) (completionTime st)
                    (Some "Task timed out waiting for acceptance"%string)) in
        cleanupTask (set_activeTasks s (JSMap.set tid t' (activeTasks s))) tid
  end.

(** The task object as [handleNodeFailure] leaves it. *)
Definition nodeFailureTask (t : Task) (nodeId : string) : Task :=
  let st := status t in
  let asg := filter (fun id => negb (String.eqb id nodeId)) (assignedNodes st) in
  let acc := filter (fun id => negb (String.eqb id nodeId)) (acceptedNodes st) in
  match asg with
  | [] => with_status t (mk_status failed asg acc (startTime st) (completionTime st)
                           (Some "All assigned nodes failed"%string))
  | _ => with_status t (mk_status (state st) asg acc (startTime st)
                          (completionTime st) (error st))
  end.

Definition handleNodeFailure (s : State) (tid nodeId : string) : State :=
  match JSMap.get tid (activeTasks s) with
  | None => s
  | Some t =>
      let t' := nodeFailureTask t nodeId in
      let s1 := set_activeTasks s (JSMap.set tid t' (activeTasks s)) in
      match assignedNodes (status t') with
      | [] => cleanupTask s1 tid
      | _ => s1
      end
  end.

(** [removeNode]: [activeTasks.forEach] visits every key, reading the live
    task object. *)
Definition removeNode_visit (pid : string) (s : State) (k : string) : State :=
  match JSMap.get k (activeTasks s) with
  | Some t => if includes pid (assignedNodes (status t))
              then handleNodeFailure s (taskId t) pid else s
  | None => s
  end.

Definition removeNode (s : State) (pid : string) (nt : NodeType) (rg : string) : State :=
  let s1 := fold_left (removeNode_visit pid) (JSMap.keys (activeTasks s)) s in
  let del_in (pools : JSMap.t (JSMap.t ConnectedPeer)) :=
    match JSMap.get rg pools with
    | Some m => JSMap.set rg (JSMap.delete pid m) pools
    | None => pools
    end in
  match nt with
  | global_node => set_pools s1 (JSMap.delete pid (globalValidators s1))
                     (regionalValidators s1) (individualNodes s1)
  | regional_node => set_pools s1 (globalValidators s1)
                       (del_in (regionalValidators s1)) (individualNodes s1)
  | individual => set_pools s1 (globalValidators s1) (regionalValidators s1)
                    (del_in (individualNodes s1))
  end.

(** [pendingRewards.get(peerId) || 0]: a falsy ([0] or [NaN]) or absent
    running sum restarts from [0]. *)
Definition getPendingRewards (s : State) : JSMap.t JSNum :=
  fold_left (fun pending rewards =>
    fold_left (fun pending '(pid, amount) =>
      let current := match JSMap.get pid pending with
                     | Some c => if js_truthy c then c else num 0
                     | None => num 0
                     end in
      JSMap.set pid (js_add current amount) pending) rewards pending)
    (JSMap.values (rewardDistributions s)) [].

End WithConfig.

(** The public read API. *)
Definition getTaskStatus (s : State) (tid : string) : option Task :=
  JSMap.get tid (activeTasks s).

Definition getActiveTasks (s : State) : list Task :=
  filter (fun t => negb (TaskState_eqb (state (status t)) completed) &&
                   negb (TaskState_eqb (state (status t)) failed))
    (JSMap.values (activeTasks s)).

Definition getTasksForNode (s : State) (pid : string) : list Task :=
  filter (fun t => includes pid (assignedNodes (status t))) (JSMap.values (activeTasks s)).

(** [if (reward) total += reward]: a falsy reward ([0] or [NaN]) is
    skipped. *)
Definition getNodeEarnings (s : State) (pid : string) : JSNum :=
  fold_left (fun total rewards =>
    match JSMap.get pid rewards with
    | Some r => if js_truthy r then js_add total r else total
    | None => total
    end) (JSMap.values (rewardDistributions s)) (num 0).

Definition getMinNodesForTask (ty : TaskType) : nat :=
  match ty with
  | tt_train => 1
  | tt_process => 3
  | tt_store => 2
  | _ => 1
  end%nat.

Definition validateTaskBudget (t : Task) : bool :=
  let tierReqs := TASK_TIER_REQUIREMENTS (type t) in
  if Qlt_bool (total (reward t)) (minReward tierReqs) then false
  else if negb (Qeq_bool (validatorShare (reward t)) (policyShare tierReqs)) then false
  else
    let minNodes := getMinNodesForTask (type t) in
    let rewardPerNode := calculateNodeReward t minNodes in
    Qle_bool (minReward tierReqs / inject_Z (Z.of_nat minNodes)) rewardPerNode.

(** [retryTask]: the boolean is the value the promise resolves to when
    [broadcastTask] does not throw.  The status reset is done in place on the
    stored task object, so it persists even if the rebroadcast throws. *)
Definition retryTask (cfg : TasksConfig) (s : State) (tid : string) : bool * Run :=
  match JSMap.get tid (activeTasks s) with
  | None => (false, ret s [])
  | Some t =>
      if negb (TaskState_eqb (state (status t)) failed) then (false, ret s [])
      else
        let t' := with_status t (mk_status pending [] [] None None None) in
        let s1 := set_activeTasks s (JSMap.set tid t' (activeTasks s)) in
        (true, broadcastTask cfg s1 t' (submitter t))
  end.

(** The task a [removeNode pid] leaves under each key. *)
Definition after_removal (pid : string) (e : string * Task) : string * Task :=
  let '(k, u) := e in
  (k, if includes pid (assignedNodes (status u)) then nodeFailureTask u pid else u).

(** A looked-up reward read as a rational: its value when it is finite, 0
    when it is absent (or not finite). *)
Definition val0 (o : option JSNum) : Q := match o with Some (num c) => c | _ => 0 end.

Definition is_finite (a : JSNum) : bool := match a with num _ => true | _ => false end.

(** A lookup that is absent or finite. *)
Definition fin_opt (o : option JSNum) : bool :=
  match o with Some a => is_finite a | None => true end.

(** Every [activeTasks] entry is keyed by its own [taskId], as
    [activeTasks.set(task.taskId, task)] keeps it. *)
Definition wf_tasks (s : State) : Prop :=
  forall k u, JSMap.get k (activeTasks s) = Some u -> taskId u = k.

End ValidatorSystem.

(** ** [signalingServer.ts]: the join handshake *)
Module SignalingServer.

(** [RegionInfo] restricted to its member and validator sets (JS [Set]s,
    insertion ordered); the metrics snapshot is a passive cache. *)
Record RegionInfo := { rpeers : list string; rvalidators : list string }.

Record State := {
  peers : JSMap.t ConnectedPeer;
  regions : JSMap.t RegionInfo;
  validatorSystem : ValidatorSystem.State
}.

(** The fields of a [join] message; [None] is a missing field. *)
Record JoinMessage := {
  j_peerId : option string;
  j_nodeType : option NodeType;
  j_nodeTier : option NodeTier;
  j_tokenBalance : option Q;
  j_region : option string
}.

(** What the handler writes: to the joining socket, or to another peer. *)
Inductive Out := to_ws (m : Message) | to_peer (pid : string) (m : Message).

Definition set_add (x : string) (l : list string) : list string :=
  if includes x l then l else l ++ [x].

Definition validateValidatorEligibility (vc : ValidatorConfig) (nodeTier : NodeTier)
    (validatorType : NodeType) (tokenBalance : Q) : bool :=
  match validatorType with
  | regional_node => tier_in nodeTier [aggregator; training] &&
                     Qle_bool (regionalTokenRequirement vc) tokenBalance
  | global_node => tier_in nodeTier [training; feedback] &&
                   Qle_bool (globalTokenRequirement vc) tokenBalance
  | individual => false
  end.

Definition updateRegionInfo (s : State) (rg pid : string) (nt : NodeType) : State :=
  let ri := match JSMap.get rg (regions s) with
            | Some ri => ri
            | None => {| rpeers := []; rvalidators := [] |}
            end in
  let ri' := {| rpeers := set_add pid (rpeers ri);
                rvalidators := match nt with
                               | individual => rvalidators ri
                               | _ => set_add pid (rvalidators ri)
                               end |} in
  {| peers := peers s; regions := JSMap.set rg ri' (regions s);
     validatorSystem := validatorSystem s |}.

(** [broadcastToPeerGroup]: same region, other peers, open sockets. *)
Definition broadcastToPeerGroup (s : State) (p : PeerInfo) (m : Message) : list Out :=
  map (fun q => to_peer (peerId (info q)) m)
    (filter (fun q => String.eqb (region (info q)) (region p) &&
                      negb (String.eqb (peerId (info q)) (peerId p)) && ws_open q)
       (JSMap.values (peers s))).

(** A string field is falsy when missing or empty. *)
Definition present (o : option string) : option string :=
  match o with
  | Some x => if String.eqb x "" then None else Some x
  | None => None
  end.

(** [sendMessage] on the joining socket: dropped when it is not open. *)
Definition send_ws (ws_ok : bool) (m : Message) : list Out :=
  if ws_ok then [to_ws m] else [].

Definition handleJoin (vc : ValidatorConfig) (s : State) (ws_ok : bool) (m : JoinMessage)
  : State * list Out :=
  match present (j_peerId m), j_nodeType m, j_nodeTier m, present (j_region m) with
  | Some pid, Some nt, Some tier, Some rg =>
      let bal := match j_tokenBalance m with Some b => b | None => 0 end in
      if (match nt with individual => false | _ => true end) &&
         negb (validateValidatorEligibility vc tier nt bal)
      then (s, send_ws ws_ok (m_error "Insufficient tier or tokens for validator role"))
      else
        let pinfo := {| peerId := pid; nodeType := nt; nodeTier := tier; region := rg;
                        tokenBalance := bal |} in
        let peer := {| ws_open := ws_ok; info := pinfo;
                       cp_status := {| online := true;
                                       resources := {| cpu := 0; memory := 0; storage := 0;
                                                       bandwidth := 0 |};
                                       ns_activeTasks := 0; ns_completedTasks := 0 |} |} in
        let s1 := {| peers := JSMap.set pid peer (peers s); regions := regions s;
                     validatorSystem := ValidatorSystem.addNode (validatorSystem s) peer |} in
        let s2 := updateRegionInfo s1 rg pid nt in
        (s2, send_ws ws_ok m_network_state ++ broadcastToPeerGroup s2 pinfo (m_peer_joined pinfo))
  | _, _, _, _ => (s, send_ws ws_ok (m_error "Invalid join message format"))
  end.

(** [Set.prototype.delete] on a set kept free of duplicates by [set_add]. *)
Definition set_delete (x : string) (l : list string) : list string :=
  filter (fun y => negb (String.eqb y x)) l.

(** [handleLeave]: the second component lists the peers that receive the
    [peer_left] notice (same region, other peer, open socket, taken from the
    registry after the peer is deleted). *)
Definition handleLeave (s : State) (pid : string) : State * list string :=
  match JSMap.get pid (peers s) with
  | None => (s, [])
  | Some p =>
      let rg := region (info p) in
      let nt := nodeType (info p) in
      let regions' :=
        match JSMap.get rg (regions s) with
        | Some ri =>
            JSMap.set rg {| rpeers := set_delete pid (rpeers ri);
                            rvalidators := match nt with
                                           | individual => rvalidators ri
                                           | _ => set_delete pid (rvalidators ri)
                                           end |} (regions s)
        | None => regions s
        end in
      let s' := {| peers := JSMap.delete pid (peers s); regions := regions';
                   validatorSystem := ValidatorSystem.removeNode (validatorSystem s) pid nt rg |} in
      (s', map (fun q => peerId (info q))
             (filter (fun q => String.eqb (region (info q)) rg &&
                               negb (String.eqb (peerId (info q)) pid) && ws_open q)
                (JSMap.values (peers s'))))
  end.

(** [handleTaskBroadcast]: [None] is a missing [task]. *)
Definition handleTaskBroadcast (cfg : TasksConfig) (s : State) (task : option Task)
    (sender : option string) : State * list Out :=
  match task, present sender with
  | Some t, Some pid =>
      match JSMap.get pid (peers s) with
      | Some peer =>
          if NodeType_eqb (nodeType (info peer)) global_node then
            let r := ValidatorSystem.broadcastTask cfg (validatorSystem s) t pid in
            ({| peers := peers s; regions := regions s;
                validatorSystem := ValidatorSystem.final r |},
             map (fun '(q, msg) => to_peer q msg) (ValidatorSystem.sent r) ++
             match ValidatorSystem.thrown r with
             | Some _ => if ws_open peer then [to_peer pid (m_error "Task broadcast failed")]
                         else []
             | None => []
             end)
          else (s, [])
      | None => (s, [])
      end
  | _, _ => (s, [])
  end.

(** Whether [pid] is held anywhere: peer registry, a region's member or
    validator set, or a pool of the validator system. *)
Definition registered (s : State) (pid : string) : bool :=
  JSMap.has pid (peers s) ||
  existsb (fun ri => includes pid (rpeers ri) || includes pid (rvalidators ri))
    (JSMap.values (regions s)) ||
  match ValidatorSystem.findPeer (validatorSystem s) pid with Some _ => true | None => false end.

End SignalingServer.

(** ** [network/DHTNetwork.ts]: local store, replication and lookup *)
Module DHTNetwork.

Record DHTNode := { id : string; address : string }.

Section WithValue.

(** The stored values ([any] in the source). *)
Variable Value : Type.

(** [activeConnections] maps a node id to its socket, recorded here as
    whether its [readyState] is [OPEN]. *)
Record State := {
  connected : bool;
  nodes : JSMap.t DHTNode;
  data : JSMap.t Value;
  activeConnections : JSMap.t bool
}.

Definition set_data (s : State) (d : JSMap.t Value) : State :=
  {| connected := connected s; nodes := nodes s; data := d;
     activeConnections := activeConnections s |}.

(** [store key value].  [send n] is the outcome of [sendMessage(n, store)]:
    [false] is a rejection (socket not open, timeout, bad response), which the
    per-target [.catch] turns into a logged warning, so [Promise.all] always
    resolves.  The result lists each attempted target with its outcome. *)
Definition store (replicationFactor : nat) (send : DHTNode -> bool) (s : State)
    (key : string) (value : Value) : option string * State * list (string * bool) :=
  if negb (connected s) then (Some "Not connected to DHT network"%string, s, [])
  else
    let s1 := set_data s (JSMap.set key value (data s)) in
    let targets := firstn replicationFactor (JSMap.values (nodes s1)) in
    (None, s1, map (fun n => (id n, send n)) targets).

(** [findValue key]: local store first, then every routing-table node in
    order; [query n] is [Some v] when [n] answered with a defined value. *)
Definition findValue (query : DHTNode -> option Value) (s : State) (key : string)
  : option string * State * option Value :=
  if negb (connected s) then (Some "Not connected to DHT network"%string, s, None)
  else
    match JSMap.get key (data s) with
    | Some v => (None, s, Some v)
    | None =>
        let fix ask (ns : list DHTNode) :=
          match ns with
          | [] => (None, s, None)
          | n :: ns' =>
              match query n with
              | Some v => (None, set_data s (JSMap.set key v (data s)), Some v)
              | None => ask ns'
              end
          end in
        ask (JSMap.values (nodes s))
    end.

(** [leave]: the [leave] broadcast and socket closes aside, the node is
    disconnected and its routing table, local store and connection table are
    cleared. *)
Definition leave (s : State) : State :=
  {| connected := false; nodes := []; data := []; activeConnections := [] |}.

(** [sendResponse node]: the response is written only when
    [activeConnections] holds a socket for [node.id] that is [OPEN]. *)
Definition sendResponse (s : State) (node : DHTNode) : bool :=
  match JSMap.get (id node) (activeConnections s) with
  | Some true => true
  | _ => false
  end.

(** [handleStore] for a [store] message from [node]: [key] is [None] when
    missing and the value is [None] when [undefined]; the boolean says
    whether a [store_response] is sent. *)
Definition handleStore (s : State) (node : DHTNode) (key : option string) (value : option Value)
  : State * bool :=
  match key, value with
  | Some k, Some v =>
      if String.eqb k "" then (s, false)
      else let s1 := set_data s (JSMap.set k v (data s)) in (s1, sendResponse s1 node)
  | _, _ => (s, false)
  end.

(** [handleFindValue] for a message from [node]: [None] is no response sent;
    [Some r] a response whose [value] is [r] ([None] for [undefined]). *)
Definition handleFindValue (s : State) (node : DHTNode) (key : option string)
  : option (option Value) :=
  match key with
  | Some k =>
      if String.eqb k "" then None
      else if sendResponse s node then Some (JSMap.get k (data s)) else None
  | None => None
  end.

(** [getPeers filter]: [matches] is [matchesFilter(., filter)], [direct] the
    [directConnections] map, and [ask n] the [peers] of [n]'s answer ([None]
    for a failed request or an answer without peers).  The accumulator is
    the [seen] set and the result array. *)
Definition getPeers_add (matches : DHTNode -> bool) (acc : list string * list DHTNode)
    (n : DHTNode) : list string * list DHTNode :=
  let '(seen, peers) := acc in
  if negb (includes (id n) seen) && matches n then (seen ++ [id n], peers ++ [n])
  else (seen, peers).

Definition getPeers (matches : DHTNode -> bool) (ask : DHTNode -> option (list DHTNode))
    (direct : JSMap.t DHTNode) (s : State) : option string * list DHTNode :=
  if negb (connected s) then (Some "Not connected to DHT network"%string, [])
  else
    let acc1 := fold_left (getPeers_add matches) (JSMap.values direct) ([], []) in
    let acc2 := fold_left (getPeers_add matches) (JSMap.values (nodes s)) acc1 in
    let acc3 := fold_left (fun acc n =>
                  match ask n with
                  | Some ps => fold_left (getPeers_add matches) ps acc
                  | None => acc
                  end) (JSMap.values (nodes s)) acc2 in
    (None, snd acc3).

End WithValue.

Arguments leave {Value}.
Arguments handleStore {Value}.
Arguments handleFindValue {Value}.
Arguments getPeers {Value}.
Arguments store {Value}.
Arguments findValue {Value}.
Arguments connected {Value}.
Arguments nodes {Value}.
Arguments data {Value}.
Arguments activeConnections {Value}.
Arguments sendResponse {Value}.
Arguments set_data {Value}.

End DHTNetwork.

(** ** [GlobalNodeCoordinator.ts]: failover *)
Module GlobalNodeCoordinator.

Inductive GlobalNodeStatus := active | degraded | failing | offline.

Definition GlobalNodeStatus_eqb (a b : GlobalNodeStatus) : bool :=
  match a, b with
  | active, active | degraded, degraded | failing, failing | offline, offline => true
  | _, _ => false
  end.

Record GlobalNodeHealth := {
  hstatus : GlobalNodeStatus;
  responsiveness : Q;
  taskCompletion : Q;
  issues : list string
}.

(** The coordinator's view of a task: its id and [globalValidator]. *)
Record CTask := { ct_taskId : string; globalValidator : option string }.

Record GlobalNodeFailover := {
  failedNodeId : string;
  backupNodeId : string;
  affectedTasks : list string;
  reason : string
}.

(** The coordinator's fields.  [activeTasks] is declared and read, but no
    method of the class writes it: it stays the empty map the field
    initialiser creates (see [Reachable] below). *)
Record State := {
  globalNodes : JSMap.t ConnectedPeer;
  healthMetrics : JSMap.t GlobalNodeHealth;
  failoverHistory : list GlobalNodeFailover;
  activeTasks : JSMap.t CTask
}.

(** The state the constructor leaves: every map and the history empty. *)
Definition initial_state : State :=
  {| globalNodes := []; healthMetrics := []; failoverHistory := []; activeTasks := [] |}.

Record Run := { thrown : option string; final : State; sent : list (string * Message) }.

Definition ret (s : State) (out : list (string * Message)) : Run :=
  {| thrown := None; final := s; sent := out |}.

Definition isNodeHealthy (s : State) (nodeId : string) : bool :=
  match JSMap.get nodeId (healthMetrics s) with
  | Some h => GlobalNodeStatus_eqb (hstatus h) active
  | None => false
  end.

(** [availableNodes] of [handleNodeFailover]. *)
Definition availableNodes (s : State) (nodeId : string) : list ConnectedPeer :=
  filter (fun n => negb (String.eqb (peerId (info n)) nodeId) && isNodeHealthy s (peerId (info n)))
    (JSMap.values (globalNodes s)).

Definition getNodeTasks (s : State) (nodeId : string) : list CTask :=
  filter (fun t => match globalValidator t with
                   | Some g => String.eqb g nodeId
                   | None => false
                   end) (JSMap.values (activeTasks s)).

(** The [task_reassignment] message [reassignTask] builds. *)
Definition reassignMessage (s : State) (t : CTask) (newNode : ConnectedPeer) : Message :=
  m_task_reassignment (ct_taskId t) (peerId (info newNode))
    (map (fun n => peerId (info n))
       (filter (fun n => negb (String.eqb (peerId (info n)) (peerId (info newNode))))
          (JSMap.values (globalNodes s))))
    (globalValidator t).

(** The sequential [for ... await this.reassignTask(...)] loop.  The
    [forwardMessage] of this file rejects on a socket that is not open, and
    when [ws.send] reports an error to its callback ([sendOk] is that
    outcome, [false] for an error); [reassignTask] rethrows, ending the
    loop. *)
Fixpoint reassignAll (sendOk : ConnectedPeer -> Message -> bool) (s : State)
    (newNode : ConnectedPeer) (ts : list CTask) : option string * list (string * Message) :=
  match ts with
  | [] => (None, [])
  | t :: ts' =>
      let m := reassignMessage s t newNode in
      if negb (ws_open newNode) then (Some "WebSocket not open"%string, [])
      else if negb (sendOk newNode m) then
        (Some "WebSocket send error"%string, [(peerId (info newNode), m)])
      else
        let '(e, out) := reassignAll sendOk s newNode ts' in
        (e, (peerId (info newNode), m) :: out)
  end.

(** [broadcastToGlobalNodes]: to every healthy node; rejections are settled. *)
Definition broadcastToGlobalNodes (s : State) (m : Message) : list (string * Message) :=
  map (fun n => (peerId (info n), m))
    (filter (fun n => isNodeHealthy s (peerId (info n)) && ws_open n)
       (JSMap.values (globalNodes s))).

Definition handleNodeFailover (sendOk : ConnectedPeer -> Message -> bool) (s : State)
    (nodeId : string) : Run :=
  match JSMap.get nodeId (globalNodes s) with
  | None => ret s []
  | Some _ =>
      match availableNodes s nodeId with
      | [] => ret s []
      | backupNode :: _ =>
          let affected := getNodeTasks s nodeId in
          let failover := {| failedNodeId := nodeId; backupNodeId := peerId (info backupNode);
                             affectedTasks := map ct_taskId affected;
                             reason := "Node health degraded below acceptable threshold" |} in
          match reassignAll sendOk s backupNode affected with
          | (Some e, out) => {| thrown := Some e; final := s; sent := out |}
          | (None, out) =>
              let s' := {| globalNodes := globalNodes s; healthMetrics := healthMetrics s;
                           failoverHistory := failoverHistory s ++ [failover];
                           activeTasks := activeTasks s |} in
              ret s' (out ++ broadcastToGlobalNodes s'
                               (m_global_node_failover nodeId (peerId (info backupNode))
                                  (map ct_taskId affected)))
          end
      end
  end.

(** The health update at the start of [removeGlobalNode]. *)
Definition markOffline (s : State) (nodeId : string) : State :=
  match JSMap.get nodeId (healthMetrics s) with
  | Some h =>
      {| globalNodes := globalNodes s;
         healthMetrics := JSMap.set nodeId
            {| hstatus := offline; responsiveness := responsiveness h;
               taskCompletion := taskCompletion h;
               issues := issues h ++ ["Node disconnected from network"%string] |}
            (healthMetrics s);
         failoverHistory := failoverHistory s; activeTasks := activeTasks s |}
  | None => s
  end.

Definition removeGlobalNode (sendOk : ConnectedPeer -> Message -> bool) (s : State)
    (nodeId : string) : Run :=
  match JSMap.get nodeId (globalNodes s) with
  | None => ret s []
  | Some _ =>
      let s1 := markOffline s nodeId in
      let r := handleNodeFailover sendOk s1 nodeId in
      match thrown r with
      | Some _ => r
      | None =>
          let s2 := final r in
          ret {| globalNodes := JSMap.delete nodeId (globalNodes s2);
                 healthMetrics := JSMap.delete nodeId (healthMetrics s2);
                 failoverHistory := failoverHistory s2; activeTasks := activeTasks s2 |}
              (sent r)
      end
  end.

Definition set_healthMetrics (s : State) (hm : JSMap.t GlobalNodeHealth) : State :=
  {| globalNodes := globalNodes s; healthMetrics := hm;
     failoverHistory := failoverHistory s; activeTasks := activeTasks s |}.

(** The record [initializeHealthMetrics] stores (and the default of
    [assessNodeHealth]). *)
Definition initialHealth : GlobalNodeHealth :=
  {| hstatus := active; responsiveness := 100; taskCompletion := 100; issues := [] |}.

(** [addGlobalNode]; the [sync_request] broadcast that follows changes no
    state and is not modelled. *)
Definition addGlobalNode (s : State) (p : ConnectedPeer) : State :=
  let pid := peerId (info p) in
  {| globalNodes := JSMap.set pid p (globalNodes s);
     healthMetrics := JSMap.set pid initialHealth (healthMetrics s);
     failoverHistory := failoverHistory s; activeTasks := activeTasks s |}.

Definition getHealthyGlobalNodes (s : State) : list PeerInfo :=
  map info (filter (fun n => isNodeHealthy s (peerId (info n))) (JSMap.values (globalNodes s))).

Definition determineNodeStatus (resp tc : Q) : GlobalNodeStatus :=
  if Qlt_bool resp 50 || Qlt_bool tc 50 then failing
  else if Qlt_bool resp 80 || Qlt_bool tc 80 then degraded
  else active.

(** [completionRate] of [getNodeTaskMetrics]: [c / (a + c) * 100 || 100].
    With [a + c = 0] the quotient is [NaN] when [c = 0] (falsy); with
    nonnegative counts that is the only case. *)
Definition getNodeCompletionRate (s : State) (nodeId : string) : Q :=
  match JSMap.get nodeId (globalNodes s) with
  | None => 0
  | Some node =>
      let c := ns_completedTasks (cp_status node) in
      let a := ns_activeTasks (cp_status node) in
      let r := c / (a + c) * 100 in
      if Qeq_bool (a + c) 0 || Qeq_bool r 0 then 100 else r
  end.

(** [assessNodeHealth peer] when the ping succeeded ([ping_ok]) or not. *)
Definition assessNodeHealth (s : State) (peer : ConnectedPeer) (ping_ok : bool)
  : GlobalNodeHealth :=
  let h := match JSMap.get (peerId (info peer)) (healthMetrics s) with
           | Some h => h | None => initialHealth end in
  let resp := if ping_ok then 100 else Qmax 0 (responsiveness h - 20) in
  let iss := if ping_ok then issues h else issues h ++ ["Node not responding to ping"%string] in
  let tc := getNodeCompletionRate s (peerId (info peer)) in
  {| hstatus := determineNodeStatus resp tc; responsiveness := resp;
     taskCompletion := tc; issues := iss |}.

(** One iteration of [checkGlobalNodesHealth]: the health object read under
    the peer's id is updated in place and stored under the map key; a
    [failing] status only leads to [handleDegradedNode], a broadcast that
    changes no state (not modelled, like the health broadcast). *)
Definition checkNodeHealth (ping : ConnectedPeer -> bool) (s : State)
    (entry : string * ConnectedPeer) : State :=
  let '(nodeId, peer) := entry in
  let h' := assessNodeHealth s peer (ping peer) in
  let hm := healthMetrics s in
  let hm1 := if JSMap.has (peerId (info peer)) hm then JSMap.set (peerId (info peer)) h' hm
             else hm in
  set_healthMetrics s (JSMap.set nodeId h' hm1).

Definition checkGlobalNodesHealth (ping : ConnectedPeer -> bool) (s : State) : State :=
  fold_left (checkNodeHealth ping) (globalNodes s) s.

(** The states the public methods reach from the constructor, whatever the
    outcome of the pings and socket writes; a [removeGlobalNode] that throws
    keeps the mutations done before the throw. *)
Inductive Reachable : State -> Prop :=
| reach_init : Reachable initial_state
| reach_add (s : State) (p : ConnectedPeer) : Reachable s -> Reachable (addGlobalNode s p)
| reach_remove (sendOk : ConnectedPeer -> Message -> bool) (s : State) (nodeId : string) :
    Reachable s -> Reachable (final (removeGlobalNode sendOk s nodeId))
| reach_check (ping : ConnectedPeer -> bool) (s : State) :
    Reachable s -> Reachable (checkGlobalNodesHealth ping s).

(** [globalNodes] as [addGlobalNode] builds it: each node stored once,
    under its own [peerId]. *)
Definition wf_nodes (s : State) : Prop :=
  NoDup (JSMap.keys (globalNodes s)) /\
  (forall k q, In (k, q) (globalNodes s) -> peerId (info q) = k).

End GlobalNodeCoordinator.

(** ** Concrete runs used by the checks below *)
Module Scenario.
Import ValidatorSystem.
Local Open Scope string_scope.

Definition mkpeer (id : string) (nt : NodeType) (tier : NodeTier) (rg : string) : ConnectedPeer :=
  {| ws_open := true;
     info := {| peerId := id; nodeType := nt; nodeTier := tier; region := rg;
                tokenBalance := 0 |};
     cp_status := {| online := true;
                     resources := {| cpu := 0; memory := 0; storage := 0; bandwidth := 0 |};
                     ns_activeTasks := 0; ns_completedTasks := 0 |} |}.

(** A [process] task of total 200 with the policy share 10, whose submitter
    declared [perNode]. *)
Definition process_task (perNode_declared : Q) : Task :=
  {| taskId := "T"; type := tt_process;
     requirements := {| minTier := aggregator; minStorage := None; minMemory := None;
                        gpuRequired := false; estimatedDuration := 60; maxNodes := 5 |};
     reward := {| total := 200; perNode := perNode_declared; validatorShare := 10;
                  penaltyRate := 1 |};
     status := mk_status pending [] [] None None None;
     submitter := "G" |}.

(** Global validator G, regional validator R and two aggregator nodes, all in
    region "eu". *)
Definition net : State :=
  fold_left addNode
    [mkpeer "G" global_node training "eu"; mkpeer "R" regional_node aggregator "eu";
     mkpeer "N1" individual aggregator "eu"; mkpeer "N2" individual aggregator "eu"]
    empty_state.

(** Broadcast, regional distribution, then acceptances at time 0. *)
Definition distributed (t : Task) : State :=
  let r1 := broadcastTask default_tasks_config net t "G" in
  final (handleRegionalTaskDistribution (final r1) t "eu" "R").

Definition accept_all (s : State) (ids : list string) : State :=
  fold_left (fun s pid => final (handleTaskAcceptance s "T" pid 0)) ids s.

(** Both nodes finish 10 s after start (estimate 60 s): no penalty. *)
Definition c1_before_last (perNode_declared : Q) : State :=
  let s := accept_all (distributed (process_task perNode_declared)) ["N1"; "N2"] in
  final (handleTaskCompletion s "T" "N1" 10).

Definition c1_run (perNode_declared : Q) : Run :=
  handleTaskCompletion (c1_before_last perNode_declared) "T" "N2" 10.

Definition reward_sum (out : list (string * Message)) : JSNum :=
  fold_right (fun '(_, m) acc =>
    match m with m_reward_distribution _ a => js_add a acc | _ => acc end) (num 0) out.

(** The regional validator R also accepts and completes the task. *)
Definition c10_run : Run :=
  let s := accept_all (distributed (process_task 90)) ["N1"; "N2"; "R"] in
  let s := final (handleTaskCompletion s "T" "N1" 10) in
  let s := final (handleTaskCompletion s "T" "N2" 10) in
  handleTaskCompletion s "T" "R" 10.

(** The task broadcast and not yet accepted. *)
Definition broadcast_only : State :=
  final (broadcastTask default_tasks_config net (process_task 90) "G").

(** The task distributed to N1 and N2, both of which accepted it. *)
Definition two_accepted : State :=
  accept_all (distributed (process_task 90)) ["N1"; "N2"].

(** A peer "X" that was never assigned accepts the broadcast task. *)
Definition c9_state : State :=
  let r1 := broadcastTask default_tasks_config net (process_task 90) "G" in
  final (handleTaskAcceptance (final r1) "T" "X" 0).

(** Global validators A and B registered on a fresh coordinator. *)
Definition coord_start : GlobalNodeCoordinator.State :=
  GlobalNodeCoordinator.addGlobalNode
    (GlobalNodeCoordinator.addGlobalNode GlobalNodeCoordinator.initial_state
       (mkpeer "A" global_node training "eu"))
    (mkpeer "B" global_node training "eu").

(** A never answers a ping; every other node does. *)
Definition ping_all_but_A (p : ConnectedPeer) : bool := negb (String.eqb (peerId (info p)) "A").

(** [coord_start] after [n] health-check rounds. *)
Fixpoint coord_rounds (n : nat) : GlobalNodeCoordinator.State :=
  match n with
  | O => coord_start
  | S k => GlobalNodeCoordinator.checkGlobalNodesHealth ping_all_but_A (coord_rounds k)
  end.

End Scenario.

(** * Facts about the JavaScript [Map] model *)
Module JSMapFacts.
Import JSMap.

Lemma get_set_eq {V} (k : string) (v : V) (m : t V) : get k (set k v m) = Some v.
Proof.
  induction m as [| [k' v'] m IH]; simpl.
  - rewrite String.eqb_refl. reflexivity.
  - destruct (String.eqb k k') eqn:E; simpl.
    + rewrite E. reflexivity.
    + rewrite E. exact IH.
Qed.

Lemma get_set_neq {V} (k k2 : string) (v : V) (m : t V) :
  k2 <> k -> get k2 (set k v m) = get k2 m.
Proof.
  intros Hne. induction m as [| [k' v'] m IH]; simpl.
  - destruct (String.eqb k2 k) eqn:E; [apply String.eqb_eq in E; congruence | reflexivity].
  - destruct (String.eqb k k') eqn:E; simpl.
    + apply String.eqb_eq in E; subst k'.
      destruct (String.eqb k2 k) eqn:E2; [apply String.eqb_eq in E2; congruence | reflexivity].
    + destruct (String.eqb k2 k'); [reflexivity | exact IH].
Qed.

Lemma get_delete_eq {V} (k : string) (m : t V) : get k (delete k m) = None.
Proof.
  induction m as [| [k' v'] m IH]; simpl; [reflexivity |].
  destruct (String.eqb k k') eqn:E; [exact IH | simpl; rewrite E; exact IH].
Qed.

Lemma get_delete_neq {V} (k k2 : string) (m : t V) :
  k2 <> k -> get k2 (delete k m) = get k2 m.
Proof.
  intros Hne. induction m as [| [k' v'] m IH]; simpl; [reflexivity |].
  destruct (String.eqb k k') eqn:E.
  - apply String.eqb_eq in E; subst k'.
    destruct (String.eqb k2 k) eqn:E2; [apply String.eqb_eq in E2; congruence | exact IH].
  - simpl. destruct (String.eqb k2 k'); [reflexivity | exact IH].
Qed.

Lemma delete_set_eq {V} (k : string) (v : V) (m : t V) : delete k (set k v m) = delete k m.
Proof.
  induction m as [| [k' v'] m IH]; simpl.
  - rewrite String.eqb_refl. reflexivity.
  - destruct (String.eqb k k') eqn:E; simpl; rewrite E; [reflexivity | now rewrite IH].
Qed.

Lemma set_set {V} (k : string) (v w : V) (m : t V) : set k v (set k w m) = set k v m.
Proof.
  induction m as [| [k' v'] m IH]; simpl.
  - rewrite String.eqb_refl. reflexivity.
  - destruct (String.eqb k k') eqn:E; simpl; rewrite E; [reflexivity | now rewrite IH].
Qed.

Lemma get_in {V} (k : string) (m : t V) (v : V) : get k m = Some v -> In (k, v) m.
Proof.
  induction m as [| [k' v'] m IH]; simpl; [discriminate |].
  destruct (String.eqb k k') eqn:E.
  - intros H. injection H as <-. apply String.eqb_eq in E. subst k'. left. reflexivity.
  - intros H. right. exact (IH H).
Qed.

Lemma get_some_in_keys {V} (k : string) (m : t V) (v : V) :
  get k m = Some v -> existsb (String.eqb k) (keys m) = true.
Proof.
  induction m as [| [k' v'] m IH]; simpl; [discriminate |].
  destruct (String.eqb k k'); [reflexivity | exact IH].
Qed.

End JSMapFacts.

(** * Task submission, timeout and node failure *)
Module TaskEngineFacts.
Import ValidatorSystem.
Local Open Scope string_scope.

Lemma validate_false_of_violation (cfg : TasksConfig) (t : Task) :
  let pol := TASK_TIER_REQUIREMENTS (type t) in
  ~ (validatorShare (reward t) == policyShare pol)
  \/ tier_in (minTier (requirements t)) (tiers pol) = false
  \/ total (reward t) < minReward pol
  \/ estimatedDuration (requirements t) < minTaskDuration cfg
  \/ maxTaskDuration cfg < estimatedDuration (requirements t)
  \/ (maxNodesPerTask cfg < maxNodes (requirements t))%nat ->
  validateTaskRequirements cfg t = false.
Proof.
  intros pol H. unfold validateTaskRequirements. fold pol.
  destruct H as [H | [H | [H | [H | [H | H]]]]].
  - destruct (Qeq_bool (validatorShare (reward t)) (policyShare pol)) eqn:E.
    + apply Qeq_bool_iff in E. contradiction.
    + now rewrite !andb_false_r, !andb_false_l.
  - now rewrite H.
  - destruct (Qle_bool (minReward pol) (total (reward t))) eqn:E.
    + apply Qle_bool_iff in E. apply Qlt_not_le in H. contradiction.
    + now rewrite andb_false_r, !andb_false_l.
  - destruct (Qle_bool (minTaskDuration cfg) (estimatedDuration (requirements t))) eqn:E.
    + apply Qle_bool_iff in E. apply Qlt_not_le in H. contradiction.
    + now rewrite !andb_false_r, !andb_false_l.
  - destruct (Qle_bool (estimatedDuration (requirements t)) (maxTaskDuration cfg)) eqn:E.
    + apply Qle_bool_iff in E. apply Qlt_not_le in H. contradiction.
    + now rewrite !andb_false_r, !andb_false_l.
  - destruct (Nat.leb (maxNodes (requirements t)) (maxNodesPerTask cfg)) eqn:E.
    + apply Nat.leb_le in E. lia.
    + now rewrite andb_false_r.
Qed.

(** C2: a task whose declared validator share differs from its type's policy
    share, or whose minimum tier, total reward, estimated duration or node
    count is outside the policy table and configured bounds, makes
    [broadcastTask] throw "Invalid task requirements" and leaves the engine
    state exactly as it was: no [activeTasks] entry stored, no timeout armed,
    nothing forwarded. *)
Theorem broadcastTask_rejects_invalid (cfg : TasksConfig) (s : State) (t : Task) (src : string) :
  let pol := TASK_TIER_REQUIREMENTS (type t) in
  ~ (validatorShare (reward t) == policyShare pol)
  \/ tier_in (minTier (requirements t)) (tiers pol) = false
  \/ total (reward t) < minReward pol
  \/ estimatedDuration (requirements t) < minTaskDuration cfg
  \/ maxTaskDuration cfg < estimatedDuration (requirements t)
  \/ (maxNodesPerTask cfg < maxNodes (requirements t))%nat ->
  broadcastTask cfg s t src =
    {| thrown := Some "Invalid task requirements"%string; final := s; sent := [] |}.
Proof.
  intros pol H. unfold broadcastTask.
  rewrite (validate_false_of_violation cfg t H). reflexivity.
Qed.

(** C5: when the acceptance timer of task [tid] fires, a task still
    [pending] becomes [failed] with error "Task timed out waiting for
    acceptance" (and its timer and reward entry are cleared); a task in any
    other state leaves the whole engine state unchanged. *)
Theorem handleTaskTimeout_only_pending (s : State) (tid : string) (t : Task) :
  JSMap.get tid (activeTasks s) = Some t ->
  (state (status t) = pending ->
     JSMap.get tid (activeTasks (handleTaskTimeout s tid)) =
       Some (with_status t (mk_status failed (assignedNodes (status t))
               (acceptedNodes (status t)) (startTime (status t)) (completionTime (status t))
               (Some "Task timed out waiting for acceptance"%string)))) /\
  (state (status t) <> pending -> handleTaskTimeout s tid = s).
Proof.
  intros Hget. unfold handleTaskTimeout. rewrite Hget. split.
  - intros Hp. rewrite Hp. simpl. apply JSMapFacts.get_set_eq.
  - intros Hp. destruct (state (status t)); try reflexivity. contradiction.
Qed.

Lemma assigned_nodeFailureTask (t : Task) (pid : string) :
  assignedNodes (status (nodeFailureTask t pid)) =
  filter (fun id => negb (String.eqb id pid)) (assignedNodes (status t)).
Proof.
  unfold nodeFailureTask. destruct (filter _ _); reflexivity.
Qed.

Lemma accepted_nodeFailureTask (t : Task) (pid : string) :
  acceptedNodes (status (nodeFailureTask t pid)) =
  filter (fun id => negb (String.eqb id pid)) (acceptedNodes (status t)).
Proof. unfold nodeFailureTask. destruct (filter _ _); reflexivity. Qed.

Lemma taskId_nodeFailureTask (t : Task) (pid : string) :
  taskId (nodeFailureTask t pid) = taskId t.
Proof. unfold nodeFailureTask. destruct (filter _ _); reflexivity. Qed.

Lemma includes_filter_removed (pid : string) (l : list string) :
  includes pid (filter (fun id => negb (String.eqb id pid)) l) = false.
Proof.
  induction l as [| x l IH]; simpl; [reflexivity |].
  destruct (String.eqb x pid) eqn:E; simpl; [exact IH |].
  rewrite IH, orb_false_r. destruct (String.eqb pid x) eqn:E2; [| reflexivity].
  apply String.eqb_eq in E2. subst. rewrite String.eqb_refl in E. discriminate.
Qed.

Lemma includes_nodeFailureTask (t : Task) (pid : string) :
  includes pid (assignedNodes (status (nodeFailureTask t pid))) = false.
Proof. rewrite assigned_nodeFailureTask. apply includes_filter_removed. Qed.

Lemma handleNodeFailure_tasks (s : State) (k pid : string) :
  activeTasks (handleNodeFailure s k pid) =
  match JSMap.get k (activeTasks s) with
  | Some t => JSMap.set k (nodeFailureTask t pid) (activeTasks s)
  | None => activeTasks s
  end.
Proof.
  unfold handleNodeFailure. destruct (JSMap.get k (activeTasks s)); [| reflexivity].
  destruct (assignedNodes (status (nodeFailureTask t pid))); reflexivity.
Qed.

Lemma handleNodeFailure_wf (s : State) (k pid : string) :
  wf_tasks s -> wf_tasks (handleNodeFailure s k pid).
Proof.
  intros Hwf k' u'. rewrite handleNodeFailure_tasks.
  destruct (JSMap.get k (activeTasks s)) as [u |] eqn:Ek; [| apply Hwf].
  destruct (String.eqb k' k) eqn:E.
  - apply String.eqb_eq in E. subst k'. rewrite JSMapFacts.get_set_eq.
    intros H. injection H as <-. rewrite taskId_nodeFailureTask. exact (Hwf k u Ek).
  - apply String.eqb_neq in E. rewrite JSMapFacts.get_set_neq by exact E. apply Hwf.
Qed.

Lemma removeNode_visit_spec (pid tid : string) (t : Task) (s : State) (k : string) :
  wf_tasks s -> includes pid (assignedNodes (status t)) = true ->
  (JSMap.get tid (activeTasks s) = Some t \/
   JSMap.get tid (activeTasks s) = Some (nodeFailureTask t pid)) ->
  wf_tasks (removeNode_visit pid s k) /\
  JSMap.get tid (activeTasks (removeNode_visit pid s k)) =
    if String.eqb tid k then Some (nodeFailureTask t pid) else JSMap.get tid (activeTasks s).
Proof.
  intros Hwf Hin Hor. unfold removeNode_visit.
  destruct (JSMap.get k (activeTasks s)) as [u |] eqn:Ek.
  - pose proof (Hwf k u Ek) as Hu.
    destruct (includes pid (assignedNodes (status u))) eqn:Ei.
    + rewrite Hu. split; [apply handleNodeFailure_wf; exact Hwf |].
      rewrite handleNodeFailure_tasks, Ek.
      destruct (String.eqb tid k) eqn:Etk.
      * apply String.eqb_eq in Etk. subst tid. rewrite JSMapFacts.get_set_eq.
        destruct Hor as [Hor | Hor]; rewrite Ek in Hor; injection Hor as ->; [reflexivity |].
        rewrite includes_nodeFailureTask in Ei. discriminate.
      * apply String.eqb_neq in Etk. apply JSMapFacts.get_set_neq. exact Etk.
    + split; [exact Hwf |].
      destruct (String.eqb tid k) eqn:Etk; [| reflexivity].
      apply String.eqb_eq in Etk. subst tid.
      destruct Hor as [Hor | Hor]; rewrite Ek in Hor; injection Hor as ->;
        [rewrite Hin in Ei; discriminate | exact Ek].
  - split; [exact Hwf |].
    destruct (String.eqb tid k) eqn:Etk; [| reflexivity].
    apply String.eqb_eq in Etk. subst tid. destruct Hor as [Hor | Hor]; congruence.
Qed.

Lemma removeNode_fold_spec (pid tid : string) (t : Task) :
  includes pid (assignedNodes (status t)) = true ->
  forall ks s, wf_tasks s ->
  (JSMap.get tid (activeTasks s) = Some t \/
   JSMap.get tid (activeTasks s) = Some (nodeFailureTask t pid)) ->
  JSMap.get tid (activeTasks (fold_left (removeNode_visit pid) ks s)) =
    if existsb (String.eqb tid) ks then Some (nodeFailureTask t pid)
    else JSMap.get tid (activeTasks s).
Proof.
  intros Hin ks. induction ks as [| k ks IH]; intros s Hwf Hor; simpl; [reflexivity |].
  destruct (removeNode_visit_spec pid tid t s k Hwf Hin Hor) as [Hwf1 Hget1].
  rewrite (IH _ Hwf1).
  - rewrite Hget1. destruct (String.eqb tid k); simpl; [| reflexivity].
    destruct (existsb _ ks); reflexivity.
  - rewrite Hget1. destruct (String.eqb tid k); [right; reflexivity | exact Hor].
Qed.

(** C4: removing a node that is listed in the [assignedNodes] of task [tid]
    drops it from [assignedNodes] and [acceptedNodes]; the task becomes
    [failed] with error "All assigned nodes failed" exactly when no assigned
    node is left, and otherwise keeps its state and error. *)
Theorem removeNode_updates_task (s : State) (pid : string) (nt : NodeType) (rg tid : string)
    (t : Task) :
  wf_tasks s ->
  JSMap.get tid (activeTasks s) = Some t ->
  includes pid (assignedNodes (status t)) = true ->
  exists t',
    JSMap.get tid (activeTasks (removeNode s pid nt rg)) = Some t' /\
    assignedNodes (status t') =
      filter (fun id => negb (String.eqb id pid)) (assignedNodes (status t)) /\
    acceptedNodes (status t') =
      filter (fun id => negb (String.eqb id pid)) (acceptedNodes (status t)) /\
    (assignedNodes (status t') = [] ->
       state (status t') = failed /\ error (status t') = Some "All assigned nodes failed"%string) /\
    (assignedNodes (status t') <> [] ->
       state (status t') = state (status t) /\ error (status t') = error (status t)).
Proof.
  intros Hwf Hget Hin. exists (nodeFailureTask t pid).
  assert (Hfold : JSMap.get tid (activeTasks (fold_left (removeNode_visit pid)
                    (JSMap.keys (activeTasks s)) s)) = Some (nodeFailureTask t pid)).
  { rewrite (removeNode_fold_spec pid tid t Hin _ s Hwf (or_introl Hget)).
    rewrite (JSMapFacts.get_some_in_keys _ _ _ Hget). reflexivity. }
  split; [unfold removeNode; destruct nt; exact Hfold |].
  rewrite assigned_nodeFailureTask, accepted_nodeFailureTask.
  split; [reflexivity |]. split; [reflexivity |].
  unfold nodeFailureTask.
  destruct (filter _ (assignedNodes (status t))) eqn:E; simpl.
  - split; [auto | intros H; contradiction].
  - split; [discriminate | auto].
Qed.

Lemma wf_tasks_check (s : State) :
  forallb (fun '(k, u) => String.eqb (taskId u) k) (activeTasks s) = true -> wf_tasks s.
Proof.
  intros H k u Hg. apply JSMapFacts.get_in in Hg. rewrite forallb_forall in H.
  apply H in Hg. apply String.eqb_eq in Hg. exact Hg.
Qed.

(** With a positive estimate and a start time, the completion reward is the
    finite number the rational formula gives. *)
Lemma completionReward_finite (t : Task) (now start : Q) :
  0 < estimatedDuration (requirements t) ->
  startTime (status t) = Some start ->
  completionReward t now =
    num (if Qlt_bool (estimatedDuration (requirements t)) (now - start)
         then perNode (reward t) *
                (1 - Qmin ((now - start - estimatedDuration (requirements t)) /
                           estimatedDuration (requirements t) * penaltyRate (reward t)) 1)
         else perNode (reward t)).
Proof.
  intros He Hst. unfold completionReward. rewrite Hst. cbv zeta.
  destruct (Qlt_bool _ _); [| reflexivity].
  unfold js_div_q.
  assert (Hz : Qeq_bool (estimatedDuration (requirements t)) 0 = false).
  { apply not_true_iff_false. intros Heq. apply Qeq_bool_iff in Heq.
    rewrite Heq in He. apply (Qlt_irrefl 0). exact He. }
  rewrite Hz. reflexivity.
Qed.

(** C7: for a completion report from [pid] at [now] on a task started at
    [start], with per-node reward [p], estimate [e > 0] and elapsed
    [d = now - start], the reward written into the task's reward map is a
    finite number [r]: [r = p] when [d <= e] and
    [r = p * (1 - min(((d - e) / e) * penaltyRate, 1))] when [d > e]; the cap
    keeps the factor [1 - min(..., 1)] nonnegative, so [r] is nonnegative
    whenever [p] is. *)
Theorem recordCompletion_reward (s : State) (t : Task) (pid : string) (now start : Q)
    (m : JSMap.t JSNum) :
  0 < estimatedDuration (requirements t) ->
  startTime (status t) = Some start ->
  JSMap.get (taskId t) (rewardDistributions s) = Some m ->
  exists s1 m',
    recordCompletion s t pid now = Some (s1, m') /\
    JSMap.get (taskId t) (rewardDistributions s1) = Some m' /\
    exists r, JSMap.get pid m' = Some (num r) /\
      (now - start <= estimatedDuration (requirements t) -> r = perNode (reward t)) /\
      (estimatedDuration (requirements t) < now - start ->
         r = perNode (reward t) *
               (1 - Qmin ((now - start - estimatedDuration (requirements t)) /
                          estimatedDuration (requirements t) * penaltyRate (reward t)) 1)) /\
      (0 <= perNode (reward t) -> 0 <= r).
Proof.
  intros He Hst Hm. unfold recordCompletion. rewrite Hm.
  do 2 eexists. split; [reflexivity |]. split; [apply JSMapFacts.get_set_eq |].
  rewrite (completionReward_finite t now start He Hst).
  eexists. split; [apply JSMapFacts.get_set_eq |].
  unfold Qlt_bool. split; [| split].
  - intros Hle. rewrite (proj2 (Qle_bool_iff _ _) Hle). reflexivity.
  - intros Hlt. destruct (Qle_bool (now - start) (estimatedDuration (requirements t))) eqn:E.
    + apply Qle_bool_iff in E. apply Qlt_not_le in Hlt. contradiction.
    + reflexivity.
  - intros Hp. destruct (negb _); [| exact Hp].
    apply Qmult_le_0_compat; [exact Hp |].
    apply (proj1 (Qle_minus_iff _ _)). apply Q.le_min_r.
Qed.

Lemma validatorShares_get {V : Type} (k : string) (share : V) (vs : list ConnectedPeer) :
  forall m : JSMap.t V,
  JSMap.get k (fold_left (fun m v => JSMap.set (peerId (info v)) share m) vs m) =
  if existsb (fun v => String.eqb k (peerId (info v))) vs then Some share else JSMap.get k m.
Proof.
  induction vs as [| v vs IH]; intros m; simpl; [reflexivity |].
  rewrite IH. destruct (String.eqb k (peerId (info v))) eqn:E; simpl.
  - apply String.eqb_eq in E. subst k. rewrite JSMapFacts.get_set_eq.
    destruct (existsb _ vs); reflexivity.
  - apply String.eqb_neq in E. rewrite JSMapFacts.get_set_neq by exact E. reflexivity.
Qed.

(** C10 (amended): at finalisation every validator's entry of the per-task
    reward map is set to the even validator share, whatever the map held
    for that peer before (a completion reward is replaced, not added to); the
    [reward_distribution] messages are built from that map; and the map is
    then deleted, so [getPendingRewards] afterwards holds nothing from this
    task. *)
Theorem finalizeTask_validator_share_overwrites (s : State) (t : Task) (now : Q) :
  (forall (m : JSMap.t JSNum) (v : ConnectedPeer), In v (getTaskValidators s t) ->
     JSMap.get (peerId (info v)) (finalRewards s t m) =
       Some (num (total (reward t) * (validatorShare (reward t) / 100) /
                  inject_Z (Z.of_nat (List.length (getTaskValidators s t)))))) /\
  sent (finalizeTask s t now) =
    flat_map (fun '(pid, r) =>
                match findPeer s pid with
                | Some p => forwardMessage p (m_reward_distribution (taskId t) r)
                | None => []
                end)
      (finalRewards s t (match JSMap.get (taskId t) (rewardDistributions s) with
                         | Some m => m | None => [] end)) /\
  rewardDistributions (final (finalizeTask s t now)) =
    JSMap.delete (taskId t) (rewardDistributions s) /\
  getPendingRewards (final (finalizeTask s t now)) =
    getPendingRewards (set_rewardDistributions s (JSMap.delete (taskId t) (rewardDistributions s))).
Proof.
  assert (Hrd : rewardDistributions (final (finalizeTask s t now)) =
                JSMap.delete (taskId t) (rewardDistributions s)).
  { simpl. apply JSMapFacts.delete_set_eq. }
  split; [| split; [reflexivity | split; [exact Hrd |]]].
  - intros m v Hin. unfold finalRewards. rewrite validatorShares_get.
    assert (He : existsb (fun w => String.eqb (peerId (info v)) (peerId (info w)))
                   (getTaskValidators s t) = true).
    { apply existsb_exists. exists v. split; [exact Hin | apply String.eqb_refl]. }
    rewrite He. unfold js_div_q.
    assert (Hz : Qeq_bool (inject_Z (Z.of_nat (List.length (getTaskValidators s t)))) 0 = false).
    { destruct (getTaskValidators s t) as [| w ws]; [contradiction |].
      apply not_true_iff_false. intros Heq. apply Qeq_bool_iff in Heq.
      unfold Qeq in Heq. simpl in Heq. lia. }
    rewrite Hz. reflexivity.
  - unfold getPendingRewards. rewrite Hrd. reflexivity.
Qed.

(** C1 (code_bug): on a [process] task of total 200 and validator share 10
    whose submitter declared [perNode = 100], distribution announces 90 per
    node, yet the completions of N1 and N2 (on time) record 100 each, and with
    the validator pool of 20 the distributed rewards sum to 220, not 200; had
    the declared [perNode] been the computed 90, they would sum to 200. *)
Theorem finalize_reward_sum_exceeds_total :
  existsb (fun '(_, m) => match m with
                          | m_task_assignment u => Qeq_bool (perNode (reward u)) 90
                          | _ => false end)
    (sent (handleRegionalTaskDistribution
             (final (broadcastTask default_tasks_config Scenario.net (Scenario.process_task 100) "G"))
             (Scenario.process_task 100) "eu" "R")) = true /\
  js_eqb (Scenario.reward_sum (sent (Scenario.c1_run 100))) (num 220) = true /\
  js_eqb (Scenario.reward_sum (sent (Scenario.c1_run 90))) (num 200) = true.
Proof. vm_compute. repeat split. Qed.

(** C9 (code_bug): after the broadcast, a [task_accepted] from "X", which no
    distribution ever assigned, puts "X" into [acceptedNodes] while
    [assignedNodes] does not hold it. *)
Theorem acceptance_outside_assigned :
  match JSMap.get "T" (activeTasks Scenario.c9_state) with
  | Some t => includes "X" (acceptedNodes (status t)) &&
              negb (includes "X" (assignedNodes (status t)))
  | None => false
  end = true.
Proof. vm_compute. reflexivity. Qed.

(** The counterexample of C10: the regional validator R also completed the
    task; it is sent 10 (its validator share) and nothing else, and after
    finalisation [getPendingRewards] has no entry for R. *)
Lemma validator_node_reward_replaced :
  JSMap.get "R" (getPendingRewards (final Scenario.c10_run)) = None /\
  existsb (fun '(pid, m) => String.eqb pid "R" &&
             match m with m_reward_distribution _ a => js_eqb a (num 10) | _ => false end)
    (sent Scenario.c10_run) = true /\
  forallb (fun '(pid, m) => negb (String.eqb pid "R") ||
             match m with m_reward_distribution _ a => js_eqb a (num 10) | _ => true end)
    (sent Scenario.c10_run) = true.
Proof. vm_compute. repeat split. Qed.

Lemma broadcastTask_rejects_invalid_witness :
  broadcastTask default_tasks_config Scenario.net
    (with_reward (Scenario.process_task 90)
       {| total := 200; perNode := 90; validatorShare := 5; penaltyRate := 1 |}) "G"
  = {| thrown := Some "Invalid task requirements"%string; final := Scenario.net; sent := [] |}.
Proof.
  apply broadcastTask_rejects_invalid. left. intro H. vm_compute in H. discriminate H.
Defined.

Lemma handleTaskTimeout_only_pending_witness :
  exists t, JSMap.get "T" (activeTasks Scenario.broadcast_only) = Some t /\
    state (status t) = pending /\
    option_map (fun u => state (status u))
      (JSMap.get "T" (activeTasks (handleTaskTimeout Scenario.broadcast_only "T"))) = Some failed.
Proof.
  case_eq (JSMap.get "T" (activeTasks Scenario.broadcast_only));
    [intros t Ht | intros H; vm_compute in H; discriminate H].
  exists t. pose proof Ht as Ht'. vm_compute in Ht'. injection Ht' as Ht'. subst t.
  split; [exact Ht |]. split; [reflexivity |].
  destruct (handleTaskTimeout_only_pending Scenario.broadcast_only "T" _ Ht) as [H1 _].
  rewrite (H1 eq_refl). reflexivity.
Defined.

Lemma removeNode_updates_task_witness :
  exists t', JSMap.get "T" (activeTasks (removeNode Scenario.two_accepted "N1" individual "eu")) = Some t' /\
    assignedNodes (status t') = ["N2"] /\ acceptedNodes (status t') = ["N2"] /\
    state (status t') = processing.
Proof.
  case_eq (JSMap.get "T" (activeTasks Scenario.two_accepted));
    [intros t Ht | intros H; vm_compute in H; discriminate H].
  pose proof Ht as Ht'. vm_compute in Ht'. injection Ht' as Ht'. subst t.
  assert (Hwf : wf_tasks Scenario.two_accepted) by (apply wf_tasks_check; vm_compute; reflexivity).
  destruct (removeNode_updates_task Scenario.two_accepted "N1" individual "eu" "T" _ Hwf Ht
              eq_refl) as (t' & H1 & H2 & H3 & _ & H5).
  exists t'. split; [exact H1 |]. rewrite H2, H3. split; [reflexivity |]. split; [reflexivity |].
  destruct H5 as [H5 _]; [rewrite H2; discriminate |]. rewrite H5. reflexivity.
Defined.

Lemma recordCompletion_reward_witness :
  exists t, JSMap.get "T" (activeTasks Scenario.two_accepted) = Some t /\
    exists s1 m', recordCompletion Scenario.two_accepted t "N1" 10 = Some (s1, m') /\
      JSMap.get "N1" m' = Some (num 90).
Proof.
  case_eq (JSMap.get "T" (activeTasks Scenario.two_accepted));
    [intros t Ht | intros H; vm_compute in H; discriminate H].
  pose proof Ht as Ht'. vm_compute in Ht'. injection Ht' as Ht'.
  exists t. split; [reflexivity |].
  destruct (recordCompletion_reward Scenario.two_accepted t "N1" 10 0 []
              ltac:(rewrite <- Ht'; reflexivity) ltac:(rewrite <- Ht'; reflexivity)
              ltac:(rewrite <- Ht'; reflexivity))
    as (s1 & m' & H1 & _ & r & Hr & Hle & _).
  exists s1, m'. split; [exact H1 |]. rewrite Hr, Hle; rewrite <- Ht'; [reflexivity |].
  apply Qle_bool_iff. reflexivity.
Defined.

End TaskEngineFacts.

(** * Facts about the join handshake *)
Module SignalingFacts.
Import SignalingServer.
Local Open Scope string_scope.

(** C6: a join from a [regional_node] whose tier is not aggregator or
    training or whose balance (0 when absent) is below the regional
    requirement, or from a [global_node] whose tier is not training or
    feedback or whose balance is below the global requirement, is answered
    with an [error] message on the joining socket (dropped if it is not open)
    and leaves the server state as it was, so the peer is held nowhere: not
    in the peer registry, no region's member or validator set, no pool of
    the validator system. *)
Theorem handleJoin_rejects_ineligible (vc : ValidatorConfig) (s : State) (ws_ok : bool)
    (m : JoinMessage) (nt : NodeType) (tier : NodeTier) :
  j_nodeType m = Some nt -> j_nodeTier m = Some tier ->
  (nt = regional_node /\
     (tier_in tier [aggregator; training] = false \/
      match j_tokenBalance m with Some b => b | None => 0 end < regionalTokenRequirement vc)) \/
  (nt = global_node /\
     (tier_in tier [training; feedback] = false \/
      match j_tokenBalance m with Some b => b | None => 0 end < globalTokenRequirement vc)) ->
  (exists e, handleJoin vc s ws_ok m = (s, send_ws ws_ok (m_error e))) /\
  (forall pid, registered (fst (handleJoin vc s ws_ok m)) pid = registered s pid).
Proof.
  intros Hnt Htier Hc.
  assert (Hv : validateValidatorEligibility vc tier nt
                 (match j_tokenBalance m with Some b => b | None => 0 end) = false /\
               nt <> individual).
  { destruct Hc as [[Hn H] | [Hn H]]; subst nt; (split; [| discriminate]); cbn [validateValidatorEligibility];
      (destruct H as [H | H]; [rewrite H; reflexivity |]);
      (destruct (Qle_bool _ _) eqn:E;
         [apply Qle_bool_iff in E; apply Qlt_not_le in H; contradiction | apply andb_false_r]). }
  destruct Hv as [Hv Hn].
  assert (Hrej : exists e, handleJoin vc s ws_ok m = (s, send_ws ws_ok (m_error e))).
  { unfold handleJoin. rewrite Hnt, Htier.
    destruct (present (j_peerId m)); [| eexists; reflexivity].
    destruct (present (j_region m)); [| eexists; reflexivity].
    cbv zeta. rewrite Hv. destruct nt; [contradiction | |]; eexists; reflexivity. }
  split; [exact Hrej |].
  intros pid. destruct Hrej as [e ->]. reflexivity.
Qed.

Lemma handleJoin_rejects_ineligible_witness :
  exists e,
    handleJoin default_validator_config
      {| peers := []; regions := []; validatorSystem := ValidatorSystem.empty_state |} true
      {| j_peerId := Some "P"; j_nodeType := Some regional_node; j_nodeTier := Some aggregator;
         j_tokenBalance := Some 500; j_region := Some "eu" |} =
    ({| peers := []; regions := []; validatorSystem := ValidatorSystem.empty_state |},
     [to_ws (m_error e)]).
Proof.
  assert (Hbal : (500 : Q) < regionalTokenRequirement default_validator_config)
    by (vm_compute; reflexivity).
  destruct (handleJoin_rejects_ineligible default_validator_config
              {| peers := []; regions := []; validatorSystem := ValidatorSystem.empty_state |} true
              {| j_peerId := Some "P"; j_nodeType := Some regional_node;
                 j_nodeTier := Some aggregator; j_tokenBalance := Some 500;
                 j_region := Some "eu" |}
              regional_node aggregator eq_refl eq_refl
              (or_introl (conj eq_refl (or_intror Hbal))))
    as [H _].
  exact H.
Defined.

End SignalingFacts.

(** * Facts about the DHT store *)
Module DHTFacts.
Import DHTNetwork.
Local Open Scope string_scope.

(** C8: while connected, [store key value] succeeds whatever the outcome of
    each replica delivery, attempts exactly the first [replicationFactor]
    routing-table nodes in order, and leaves [value] in the local store, from
    which [findValue key] returns it without asking any node. *)
Theorem store_then_findValue {Value : Type} (R : nat) (send : DHTNode -> bool)
    (query : DHTNode -> option Value) (s : State Value) (key : string) (v : Value) :
  connected s = true ->
  exists s',
    store R send s key v =
      (None, s', map (fun n => (id n, send n)) (firstn R (JSMap.values (nodes s)))) /\
    data s' = JSMap.set key v (data s) /\
    findValue query s' key = (None, s', Some v).
Proof.
  intros H. unfold store. rewrite H. simpl.
  eexists. split; [reflexivity |]. split; [reflexivity |].
  unfold findValue. simpl. rewrite H. simpl. rewrite JSMapFacts.get_set_eq. reflexivity.
Qed.

Lemma store_then_findValue_witness :
  exists s',
    store 3 (fun _ => false)
      ({| connected := true; nodes := [("a", {| id := "a"; address := "ws://a" |})];
          data := []; activeConnections := [] |} : State nat) "k" 7%nat = (None, s', [("a", false)]) /\
    findValue (fun _ => None) s' "k" = (None, s', Some 7%nat).
Proof.
  destruct (store_then_findValue 3 (fun _ => false) (fun _ => None)
              ({| connected := true; nodes := [("a", {| id := "a"; address := "ws://a" |})];
                  data := []; activeConnections := [] |} : State nat) "k" 7%nat eq_refl) as (s' & H1 & _ & H3).
  exists s'. split; [exact H1 | exact H3].
Defined.

End DHTFacts.

(** * Facts about global-node failover *)
Module CoordinatorFacts.
Import GlobalNodeCoordinator.
Local Open Scope string_scope.

Lemma markOffline_globalNodes (s : State) (n : string) :
  globalNodes (markOffline s n) = globalNodes s.
Proof. unfold markOffline. destruct (JSMap.get n (healthMetrics s)); reflexivity. Qed.

Lemma markOffline_activeTasks (s : State) (n : string) :
  activeTasks (markOffline s n) = activeTasks s.
Proof. unfold markOffline. destruct (JSMap.get n (healthMetrics s)); reflexivity. Qed.

Lemma markOffline_failoverHistory (s : State) (n : string) :
  failoverHistory (markOffline s n) = failoverHistory s.
Proof. unfold markOffline. destruct (JSMap.get n (healthMetrics s)); reflexivity. Qed.

Lemma markOffline_isNodeHealthy (s : State) (n k : string) :
  k <> n -> isNodeHealthy (markOffline s n) k = isNodeHealthy s k.
Proof.
  intros Hk. unfold markOffline, isNodeHealthy.
  destruct (JSMap.get n (healthMetrics s)); simpl; [| reflexivity].
  rewrite JSMapFacts.get_set_neq by exact Hk. reflexivity.
Qed.

Lemma markOffline_availableNodes (s : State) (n : string) :
  availableNodes (markOffline s n) n = availableNodes s n.
Proof.
  unfold availableNodes. rewrite markOffline_globalNodes.
  induction (JSMap.values (globalNodes s)) as [| x l IH]; simpl; [reflexivity |].
  destruct (String.eqb (peerId (info x)) n) eqn:E; simpl; [exact IH |].
  apply String.eqb_neq in E. rewrite markOffline_isNodeHealthy by exact E. rewrite IH.
  reflexivity.
Qed.

Lemma markOffline_getNodeTasks (s : State) (n : string) :
  getNodeTasks (markOffline s n) n = getNodeTasks s n.
Proof. unfold getNodeTasks. rewrite markOffline_activeTasks. reflexivity. Qed.

Lemma coord_rounds_reachable (n : nat) : Reachable (Scenario.coord_rounds n).
Proof.
  induction n as [| n IH]; simpl.
  - unfold Scenario.coord_start. apply reach_add, reach_add, reach_init.
  - apply reach_check. exact IH.
Qed.

(** C3 (code_bug): a fresh coordinator registers global validators A and B,
    then runs health-check rounds in which A fails every ping and B answers.
    Every state of this run is reachable.  After two rounds A is [degraded];
    the third round makes it [failing] while B is [active], so a backup is
    available.  Yet no failover is performed: [failoverHistory] is still
    empty and A is still registered. *)
Theorem failing_health_no_failover :
  Reachable (Scenario.coord_rounds 3) /\
  (exists h, JSMap.get "A" (healthMetrics (Scenario.coord_rounds 2)) = Some h /\
             hstatus h = degraded) /\
  (exists h, JSMap.get "A" (healthMetrics (Scenario.coord_rounds 3)) = Some h /\
             hstatus h = failing) /\
  isNodeHealthy (Scenario.coord_rounds 3) "B" = true /\
  availableNodes (Scenario.coord_rounds 3) "A" <> [] /\
  failoverHistory (Scenario.coord_rounds 3) = [] /\
  JSMap.has "A" (globalNodes (Scenario.coord_rounds 3)) = true.
Proof.
  split; [apply coord_rounds_reachable |].
  split; [eexists; split; [vm_compute; reflexivity | reflexivity] |].
  split; [eexists; split; [vm_compute; reflexivity | reflexivity] |].
  split; [vm_compute; reflexivity |].
  split; [vm_compute; intros H; discriminate H |].
  split; vm_compute; reflexivity.
Qed.

End CoordinatorFacts.

(** * Task engine: budget check, distribution, acceptance, completion, retry *)
Module TaskEngineExtraFacts.
Import ValidatorSystem.
Local Open Scope string_scope.

Lemma Qdiv_le_mono (a b n : Q) : 0 < n -> (a / n <= b / n <-> a <= b).
Proof. intros Hn. unfold Qdiv. apply Qmult_le_r. apply Qinv_lt_0_compat. exact Hn. Qed.

Lemma le_of_le_scaled (T m f : Q) : 0 < m -> 0 < f -> f <= 1 -> m <= T * f -> m <= T.
Proof.
  intros Hm Hf0 Hf1 H. destruct (Qlt_le_dec T 0) as [Hneg | Hpos].
  - exfalso. assert (Hp : 0 < (- T) * f) by (apply Qmult_lt_0_compat; lra).
    assert (E : T * f == - ((- T) * f)) by ring. rewrite E in H. lra.
  - apply Qle_trans with (T * f); [exact H |].
    setoid_replace (T * f) with (f * T) by ring.
    setoid_replace T with (1 * T) at 2 by ring.
    apply Qmult_le_compat_r; assumption.
Qed.

Lemma budget_core (T sh m p n : Q) :
  0 < n -> (m <= T * (1 - p / 100) -> m <= T) ->
  (if Qlt_bool T m then false else if negb (Qeq_bool sh p) then false
   else Qle_bool (m / n) (T * (1 - sh / 100) / n)) = true <->
  sh == p /\ m <= T * (1 - p / 100).
Proof.
  intros Hn Hdom. unfold Qlt_bool. split.
  - destruct (Qle_bool m T) eqn:E1; simpl; [| discriminate].
    destruct (Qeq_bool sh p) eqn:E2; simpl; [| discriminate].
    intros H. apply Qeq_bool_iff in E2. apply Qle_bool_iff in H.
    apply Qdiv_le_mono in H; [| exact Hn]. split; [exact E2 |]. rewrite <- E2. exact H.
  - intros [Hsh Hm]. rewrite (proj2 (Qle_bool_iff m T) (Hdom Hm)). simpl.
    rewrite (proj2 (Qeq_bool_iff sh p) Hsh). simpl. apply Qle_bool_iff.
    apply Qdiv_le_mono; [exact Hn |]. rewrite Hsh. exact Hm.
Qed.

(** [validateTaskBudget] accepts a task exactly when its validator share is
    the policy share of its type and the node pool left after that share,
    [total * (1 - share / 100)], covers the type's minimum reward: the
    minimum node count cancels out, and the separate [total >= minReward]
    test is implied. *)
Theorem validateTaskBudget_iff (t : Task) :
  validateTaskBudget t = true <->
  validatorShare (reward t) == policyShare (TASK_TIER_REQUIREMENTS (type t)) /\
  minReward (TASK_TIER_REQUIREMENTS (type t)) <=
    total (reward t) * (1 - policyShare (TASK_TIER_REQUIREMENTS (type t)) / 100).
Proof.
  unfold validateTaskBudget, calculateNodeReward. cbv zeta. apply budget_core.
  - destruct (type t); vm_compute; reflexivity.
  - apply le_of_le_scaled; destruct (type t); vm_compute; try reflexivity; discriminate.
Qed.

Lemma in_firstn {A} (k : nat) (l : list A) (x : A) : In x (firstn k l) -> In x l.
Proof.
  revert l. induction k as [| k IH]; intros [| y l]; simpl; try tauto.
  intros [H | H]; [left; exact H | right; apply IH; exact H].
Qed.

(** [handleRegionalTaskDistribution] never throws.  When the region has an
    individual-node pool holding an eligible node and the task allows at
    least one node, it assigns a nonempty list of at most [maxNodes] nodes,
    each eligible and taken from that pool, appends their ids to
    [assignedNodes] of the task it was given and stores that task; every
    message it sends is a [task_assignment] to one of them whose [perNode]
    is the computed share, and those shares add up to
    [total * (1 - validatorShare / 100)].  With no pool for the region, a
    [maxNodes] of 0, or no eligible node, nothing changes and nothing is
    sent. *)
Theorem handleRegionalTaskDistribution_spec (s : State) (t : Task) (rg src : string) :
  let r := handleRegionalTaskDistribution s t rg src in
  let st := status t in
  thrown r = None /\
  (forall pool, JSMap.get rg (individualNodes s) = Some pool ->
     existsb (fun n => isNodeEligibleForTask n t) (JSMap.values pool) = true ->
     (1 <= maxNodes (requirements t))%nat ->
     exists added,
       added <> [] /\ (List.length added <= maxNodes (requirements t))%nat /\
       (forall n, In n added -> In n (JSMap.values pool) /\ isNodeEligibleForTask n t = true) /\
       final r = set_activeTasks s
         (JSMap.set (taskId t)
            (with_status t (mk_status (state st)
               (assignedNodes st ++ map (fun n => peerId (info n)) added)%list
               (acceptedNodes st) (startTime st) (completionTime st) (error st)))
            (activeTasks s)) /\
       (forall q m, In (q, m) (sent r) ->
          exists n u, In n added /\ q = peerId (info n) /\ m = m_task_assignment u /\
            perNode (reward u) = calculateNodeReward t (List.length added) /\
            total (reward u) = total (reward t)) /\
       inject_Z (Z.of_nat (List.length added)) * calculateNodeReward t (List.length added) ==
         total (reward t) * (1 - validatorShare (reward t) / 100)) /\
  (JSMap.get rg (individualNodes s) = None \/ maxNodes (requirements t) = 0%nat \/
   (exists pool, JSMap.get rg (individualNodes s) = Some pool /\
      existsb (fun n => isNodeEligibleForTask n t) (JSMap.values pool) = false) ->
   final r = s /\ sent r = []).
Proof.
  cbv zeta. unfold handleRegionalTaskDistribution.
  split; [| split].
  - destruct (JSMap.get rg (individualNodes s)); [| reflexivity].
    destruct (firstn _ _); reflexivity.
  - intros pool Hp Hex Hmax. rewrite Hp.
    set (E := filter (fun n => isNodeEligibleForTask n t) (JSMap.values pool)).
    assert (HE : E <> []).
    { apply existsb_exists in Hex. destruct Hex as [x [Hx Hel]].
      intros H0. assert (Hin : In x E) by (apply filter_In; split; assumption).
      rewrite H0 in Hin. exact Hin. }
    assert (Hadd : firstn (maxNodes (requirements t)) E <> []).
    { destruct E as [| x E']; [contradiction |].
      destruct (maxNodes (requirements t)); [lia | discriminate]. }
    exists (firstn (maxNodes (requirements t)) E).
    destruct (firstn (maxNodes (requirements t)) E) as [| a l] eqn:Ef; [contradiction |].
    rewrite <- Ef. split; [rewrite Ef; discriminate |]. split; [apply firstn_le_length |]. split.
    + intros n Hn. apply in_firstn in Hn. apply filter_In in Hn. exact Hn.
    + split; [reflexivity |]. split.
      * intros q m Hin. simpl in Hin. apply in_flat_map in Hin. destruct Hin as [n [Hn Hqm]].
        unfold forwardMessage in Hqm. destruct (ws_open n); [| destruct Hqm].
        destruct Hqm as [Hqm | []]. injection Hqm as <- <-.
        rewrite Ef. eexists n, _. split; [rewrite <- Ef; exact Hn |].
        split; [reflexivity |]. split; [reflexivity |]. split; reflexivity.
      * unfold calculateNodeReward. apply Qmult_div_r.
        rewrite Ef. intros H0. change 0 with (inject_Z 0) in H0.
        apply (proj1 (inject_Z_injective _ _)) in H0. cbn [List.length] in H0. lia.
  - intros [H | [H | [pool [Hp Hex]]]].
    + rewrite H. split; reflexivity.
    + destruct (JSMap.get rg (individualNodes s)); [| split; reflexivity].
      rewrite H. split; reflexivity.
    + rewrite Hp.
      assert (HE : filter (fun n => isNodeEligibleForTask n t) (JSMap.values pool) = []).
      { destruct (filter _ _) as [| x l] eqn:Ef; [reflexivity |].
        assert (Hx : In x (filter (fun n => isNodeEligibleForTask n t) (JSMap.values pool)))
          by (rewrite Ef; left; reflexivity).
        apply filter_In in Hx. destruct Hx as [Hx1 Hx2].
        assert (Hc : existsb (fun n => isNodeEligibleForTask n t) (JSMap.values pool) = true)
          by (apply existsb_exists; exists x; split; assumption).
        congruence. }
      rewrite HE. rewrite firstn_nil. split; reflexivity.
Qed.

(** [handleTaskAcceptance] of a stored task never throws and sends nothing.
    It appends the peer to [acceptedNodes] and keeps [assignedNodes].  The
    first acceptance (no [startTime] yet) moves the task to [processing] and
    sets [startTime] to now.  A later one keeps the state and the first
    [startTime].  The task's reward map is created empty when absent and
    kept as it is otherwise.  An unknown task id changes nothing. *)
Theorem handleTaskAcceptance_spec (s : State) (tid pid : string) (now : Q) :
  (JSMap.get tid (activeTasks s) = None -> handleTaskAcceptance s tid pid now = ret s []) /\
  (forall t, JSMap.get tid (activeTasks s) = Some t ->
   let r := handleTaskAcceptance s tid pid now in
   thrown r = None /\ sent r = [] /\
   (exists t', JSMap.get tid (activeTasks (final r)) = Some t' /\
      acceptedNodes (status t') = (acceptedNodes (status t) ++ [pid])%list /\
      assignedNodes (status t') = assignedNodes (status t) /\
      (startTime (status t) = None ->
         state (status t') = processing /\ startTime (status t') = Some now) /\
      (forall st0, startTime (status t) = Some st0 ->
         state (status t') = state (status t) /\ startTime (status t') = Some st0)) /\
   JSMap.get tid (rewardDistributions (final r)) =
     match JSMap.get tid (rewardDistributions s) with Some m => Some m | None => Some [] end).
Proof.
  unfold handleTaskAcceptance. split.
  - intros H. rewrite H. reflexivity.
  - intros t H. rewrite H. cbv zeta. split; [| split; [| split]].
    + unfold JSMap.has. simpl. destruct (JSMap.get tid (rewardDistributions s)); reflexivity.
    + unfold JSMap.has. simpl. destruct (JSMap.get tid (rewardDistributions s)); reflexivity.
    + eexists. split.
      * unfold JSMap.has. simpl.
        destruct (JSMap.get tid (rewardDistributions s)); simpl; apply JSMapFacts.get_set_eq.
      * destruct (startTime (status t)) as [st0 |] eqn:Est; simpl.
        -- split; [reflexivity | split; [reflexivity |]].
           split; [discriminate |]. intros st1 H1. injection H1 as <-. split; reflexivity.
        -- split; [reflexivity | split; [reflexivity |]].
           split; [intros _; split; reflexivity | discriminate].
    + unfold JSMap.has. simpl. destruct (JSMap.get tid (rewardDistributions s)) eqn:E; simpl.
      * exact E.
      * apply JSMapFacts.get_set_eq.
Qed.

(** A completion report for a stored task whose reward map does not exist
    (no acceptance was handled, or the task was already finalised or timed
    out, both of which delete the map) makes [handleTaskCompletion] throw a
    [TypeError] and leaves the whole engine state unchanged; a report for an
    unknown task id changes nothing and sends nothing. *)
Theorem handleTaskCompletion_without_reward_map (s : State) (tid pid : string) (now : Q) :
  (JSMap.get tid (activeTasks s) = None -> handleTaskCompletion s tid pid now = ret s []) /\
  (forall t, JSMap.get tid (activeTasks s) = Some t ->
     JSMap.get (taskId t) (rewardDistributions s) = None ->
     handleTaskCompletion s tid pid now =
       {| thrown := Some "TypeError"; final := s; sent := [] |}).
Proof.
  unfold handleTaskCompletion. split.
  - intros H. rewrite H. reflexivity.
  - intros t H Hr. rewrite H. unfold recordCompletion. rewrite Hr. reflexivity.
Qed.

(** Completion of a stored task (kept under its own id, with its reward map
    [m]) by [pid] at [now]: when the map, with [pid]'s reward written in,
    has as many entries as the task has accepted nodes, the task is
    finalised.  It is stored [completed] with [completionTime = now] and its
    other status fields kept, its timeout entry is cleared, and its reward map is
    deleted.  Otherwise only the reward is recorded: the task table is
    unchanged and nothing is sent.  Neither path throws. *)
Theorem handleTaskCompletion_finalizes (s : State) (tid pid : string) (now : Q) (t : Task)
    (m : JSMap.t JSNum) :
  JSMap.get tid (activeTasks s) = Some t -> taskId t = tid ->
  JSMap.get tid (rewardDistributions s) = Some m ->
  let r := handleTaskCompletion s tid pid now in
  let m' := JSMap.set pid (completionReward t now) m in
  thrown r = None /\
  (JSMap.size m' = List.length (acceptedNodes (status t)) ->
     JSMap.get tid (activeTasks (final r)) =
       Some (with_status t (mk_status completed (assignedNodes (status t))
               (acceptedNodes (status t)) (startTime (status t)) (Some now)
               (error (status t)))) /\
     JSMap.get tid (taskTimeouts (final r)) = None /\
     JSMap.get tid (rewardDistributions (final r)) = None) /\
  (JSMap.size m' <> List.length (acceptedNodes (status t)) ->
     sent r = [] /\ activeTasks (final r) = activeTasks s /\
     JSMap.get tid (rewardDistributions (final r)) = Some m').
Proof.
  intros Hg Hid Hm. cbv zeta. unfold handleTaskCompletion, recordCompletion.
  rewrite Hg, Hid, Hm.
  destruct (Nat.eqb (JSMap.size (JSMap.set pid (completionReward t now) m))
              (List.length (acceptedNodes (status t)))) eqn:E.
  - apply Nat.eqb_eq in E. split; [reflexivity |]. split; [intros _ | intros H; contradiction].
    simpl. rewrite Hid. split; [apply JSMapFacts.get_set_eq |].
    split; apply JSMapFacts.get_delete_eq.
  - apply Nat.eqb_neq in E. split; [reflexivity |].
    split; [intros H; contradiction | intros _].
    split; [reflexivity | split; [reflexivity |]]. apply JSMapFacts.get_set_eq.
Qed.

(** [retryTask] on a stored task kept under its own id: a task that is not
    [failed] gives [false] and changes nothing.  A [failed] one gives [true] and
    is reset in place to [pending], with no assigned or accepted nodes and
    no [startTime], [completionTime] or [error].  It is then rebroadcast:
    with valid requirements this arms its timeout timer; with invalid ones
    the rebroadcast throws, but the reset task stays stored as [pending] and
    no timer is armed for it. *)
Theorem retryTask_spec (cfg : TasksConfig) (s : State) (tid : string) (t : Task) :
  JSMap.get tid (activeTasks s) = Some t -> taskId t = tid ->
  let t' := with_status t (mk_status pending [] [] None None None) in
  (state (status t) <> failed -> retryTask cfg s tid = (false, ret s [])) /\
  (state (status t) = failed ->
     fst (retryTask cfg s tid) = true /\
     JSMap.get tid (activeTasks (final (snd (retryTask cfg s tid)))) = Some t' /\
     (ValidatorSystem.validateTaskRequirements cfg t = true ->
        thrown (snd (retryTask cfg s tid)) = None /\
        JSMap.has tid (taskTimeouts (final (snd (retryTask cfg s tid)))) = true) /\
     (ValidatorSystem.validateTaskRequirements cfg t = false ->
        thrown (snd (retryTask cfg s tid)) = Some "Invalid task requirements" /\
        taskTimeouts (final (snd (retryTask cfg s tid))) = taskTimeouts s)).
Proof.
  intros Hg Hid. cbv zeta. unfold retryTask. rewrite Hg. split.
  - intros Hst. destruct (state (status t)); try reflexivity. contradiction.
  - intros Hst. rewrite Hst. simpl.
    assert (Hv : validateTaskRequirements cfg
                   (with_status t (mk_status pending [] [] None None None)) =
                 validateTaskRequirements cfg t) by reflexivity.
    unfold broadcastTask. rewrite Hv. simpl. rewrite Hid.
    split; [reflexivity |].
    destruct (validateTaskRequirements cfg t); simpl.
    + split; [rewrite JSMapFacts.set_set, JSMapFacts.get_set_eq; reflexivity |].
      split; [intros _; split; [reflexivity |] | discriminate].
      unfold JSMap.has. rewrite Hid, JSMapFacts.get_set_eq. reflexivity.
    + split; [apply JSMapFacts.get_set_eq |].
      split; [discriminate | intros _; split; reflexivity].
Qed.

Lemma get_app_notin {V} (k : string) (l1 l2 : JSMap.t V) :
  ~ In k (map fst l1) -> JSMap.get k (l1 ++ l2)%list = JSMap.get k l2.
Proof.
  induction l1 as [| [k' v'] l1 IH]; simpl; intros Hn; [reflexivity |].
  destruct (String.eqb k k') eqn:E.
  - apply String.eqb_eq in E. subst. exfalso. apply Hn. left. reflexivity.
  - apply IH. intros H. apply Hn. right. exact H.
Qed.

Lemma set_app_notin {V} (k : string) (v u : V) (l1 l2 : JSMap.t V) :
  ~ In k (map fst l1) -> JSMap.set k v (l1 ++ (k, u) :: l2)%list = (l1 ++ (k, v) :: l2)%list.
Proof.
  induction l1 as [| [k' v'] l1 IH]; simpl; intros Hn.
  - rewrite String.eqb_refl. reflexivity.
  - destruct (String.eqb k k') eqn:E.
    + apply String.eqb_eq in E. subst. exfalso. apply Hn. left. reflexivity.
    + rewrite IH; [reflexivity |]. intros H. apply Hn. right. exact H.
Qed.

Lemma get_of_in_nodup {V} (k : string) (v : V) (l : JSMap.t V) :
  NoDup (map fst l) -> In (k, v) l -> JSMap.get k l = Some v.
Proof.
  induction l as [| [k' v'] l IH]; simpl; intros Hnd Hin; [destruct Hin |].
  inversion Hnd as [| ? ? Hn Hnd']; subst.
  destruct Hin as [Heq | Hin].
  - injection Heq as -> ->. rewrite String.eqb_refl. reflexivity.
  - destruct (String.eqb k k') eqn:E; [| apply IH; assumption].
    apply String.eqb_eq in E. subst. exfalso. apply Hn.
    apply (in_map fst) in Hin. exact Hin.
Qed.

Lemma keys_after_removal (pid : string) (l : JSMap.t Task) :
  map fst (map (after_removal pid) l) = map fst l.
Proof. induction l as [| [k u] l IH]; simpl; [reflexivity | rewrite IH; reflexivity]. Qed.

Lemma removeNode_fold_tasks (pid : string) :
  forall l2 l1 s,
  NoDup (map fst (l1 ++ l2)%list) ->
  (forall k u, In (k, u) l2 -> taskId u = k) ->
  activeTasks s = (map (after_removal pid) l1 ++ l2)%list ->
  activeTasks (fold_left (removeNode_visit pid) (map fst l2) s) =
    (map (after_removal pid) l1 ++ map (after_removal pid) l2)%list.
Proof.
  induction l2 as [| [k u] l2 IH]; intros l1 s Hnd Hid Hs; simpl.
  - rewrite Hs, app_nil_r. reflexivity.
  - assert (Hk : ~ In k (map fst (map (after_removal pid) l1))).
    { rewrite keys_after_removal. rewrite map_app in Hnd. simpl in Hnd.
      apply NoDup_remove_2 in Hnd. intros H. apply Hnd. apply in_or_app. left. exact H. }
    assert (Hgk : JSMap.get k (activeTasks s) = Some u).
    { rewrite Hs, get_app_notin by exact Hk. simpl. rewrite String.eqb_refl. reflexivity. }
    assert (Hnd' : NoDup (map fst ((l1 ++ [(k, u)]) ++ l2)%list)) by (rewrite <- app_assoc; exact Hnd).
    assert (Hid' : forall k' u', In (k', u') l2 -> taskId u' = k')
      by (intros k' u' H; apply Hid; right; exact H).
    rewrite (IH (l1 ++ [(k, u)])%list);
      [rewrite map_app, <- app_assoc; reflexivity | exact Hnd' | exact Hid' |].
    unfold removeNode_visit. rewrite Hgk. rewrite map_app, <- app_assoc. simpl.
    destruct (includes pid (assignedNodes (status u))) eqn:Ei.
    + rewrite (Hid k u (or_introl eq_refl)).
      rewrite TaskEngineFacts.handleNodeFailure_tasks, Hgk, Hs.
      apply set_app_notin. exact Hk.
    + exact Hs.
Qed.

(** [removeNode pid], on a task table whose keys are distinct and whose
    entries are keyed by their own [taskId], keeps the keys and their order.
    It rewrites each task that lists [pid] in [assignedNodes] as
    [handleNodeFailure] does and leaves every other task as it was;
    afterwards [getTasksForNode pid] is empty. *)
Theorem removeNode_task_table (s : State) (pid : string) (nt : NodeType) (rg : string) :
  NoDup (JSMap.keys (activeTasks s)) -> wf_tasks s ->
  activeTasks (removeNode s pid nt rg) = map (after_removal pid) (activeTasks s) /\
  getTasksForNode (removeNode s pid nt rg) pid = [].
Proof.
  intros Hnd Hwf.
  assert (Hfold : activeTasks (fold_left (removeNode_visit pid) (JSMap.keys (activeTasks s)) s) =
                  map (after_removal pid) (activeTasks s)).
  { apply (removeNode_fold_tasks pid (activeTasks s) [] s); [exact Hnd | | reflexivity].
    intros k u Hin. apply Hwf. apply get_of_in_nodup; assumption. }
  assert (Htab : activeTasks (removeNode s pid nt rg) = map (after_removal pid) (activeTasks s))
    by (unfold removeNode; destruct nt; exact Hfold).
  split; [exact Htab |].
  unfold getTasksForNode. rewrite Htab. clear.
  induction (activeTasks s) as [| [k u] l IH]; simpl; [reflexivity |].
  destruct (includes pid (assignedNodes (status u))) eqn:Ei; simpl.
  - rewrite TaskEngineFacts.includes_nodeFailureTask. exact IH.
  - rewrite Ei. exact IH.
Qed.

Lemma pending_inner (pid : string) :
  forall (m P : JSMap.t JSNum), NoDup (JSMap.keys m) ->
  forallb (fun kv => is_finite (snd kv)) m = true -> fin_opt (JSMap.get pid P) = true ->
  let P' := fold_left (fun pending '(pid0, amount) =>
              let current := match JSMap.get pid0 pending with
                             | Some c => if js_truthy c then c else num 0
                             | None => num 0
                             end in
              JSMap.set pid0 (js_add current amount) pending) m P in
  fin_opt (JSMap.get pid P') = true /\
  val0 (JSMap.get pid P') == val0 (JSMap.get pid P) + val0 (JSMap.get pid m).
Proof.
  induction m as [| [k a] m IH]; intros P Hnd Hfin HP; cbv zeta; cbn [fold_left].
  - split; [exact HP |]. simpl. rewrite Qplus_0_r. apply Qeq_refl.
  - inversion Hnd as [| ? ? Hn Hnd']; subst.
    simpl in Hfin. apply andb_prop in Hfin. destruct Hfin as [Ha Hfin].
    destruct a as [x | | |]; try discriminate Ha.
    destruct (String.eqb pid k) eqn:E.
    + apply String.eqb_eq in E. subst k.
      assert (Hm : JSMap.get pid m = None).
      { destruct (JSMap.get pid m) eqn:Em; [| reflexivity].
        exfalso. apply Hn. apply JSMapFacts.get_in in Em.
        apply (in_map fst) in Em. exact Em. }
      destruct (JSMap.get pid P) as [[c | | |] |] eqn:EP; try discriminate HP.
      * destruct (IH (JSMap.set pid (js_add (if js_truthy (num c) then num c else num 0) (num x)) P)
                    Hnd' Hfin) as [F1 F2];
          [rewrite JSMapFacts.get_set_eq; destruct (js_truthy (num c)); reflexivity |].
        split; [exact F1 |]. rewrite F2, Hm, JSMapFacts.get_set_eq. simpl.
        rewrite String.eqb_refl. simpl.
        destruct (negb (Qeq_bool c 0)) eqn:Ec; simpl.
        -- rewrite Qplus_0_r. apply Qeq_refl.
        -- apply negb_false_iff, Qeq_bool_iff in Ec. rewrite Ec. ring.
      * destruct (IH (JSMap.set pid (js_add (num 0) (num x)) P) Hnd' Hfin) as [F1 F2];
          [rewrite JSMapFacts.get_set_eq; reflexivity |].
        split; [exact F1 |]. rewrite F2, Hm, JSMapFacts.get_set_eq. simpl.
        rewrite String.eqb_refl. simpl. ring.
    + apply String.eqb_neq in E.
      destruct (IH (JSMap.set k (js_add (match JSMap.get k P with
                                         | Some c => if js_truthy c then c else num 0
                                         | None => num 0 end) (num x)) P) Hnd' Hfin)
        as [F1 F2]; [rewrite JSMapFacts.get_set_neq by exact E; exact HP |].
      split; [exact F1 |]. rewrite F2, JSMapFacts.get_set_neq by exact E.
      simpl. apply String.eqb_neq in E. rewrite E. apply Qeq_refl.
Qed.

(** As long as every reward stored in the per-task maps is a finite number
    and no map holds a peer twice (which [Map.set] guarantees),
    [getNodeEarnings pid] and the [pid] entry of [getPendingRewards] (0 when
    absent) are equal finite numbers: skipping a zero reward and restarting
    a zero running sum from [0] change nothing.  ([getNodeEarnings] skips a
    [NaN] reward, which [getPendingRewards] adds, so the finiteness premise
    is needed.) *)
Theorem getNodeEarnings_pending (s : State) (pid : string) :
  (forall m, In m (JSMap.values (rewardDistributions s)) -> NoDup (JSMap.keys m)) ->
  (forall m, In m (JSMap.values (rewardDistributions s)) ->
     forallb (fun kv => is_finite (snd kv)) m = true) ->
  js_eqb (getNodeEarnings s pid)
    (match JSMap.get pid (getPendingRewards s) with Some r => r | None => num 0 end) = true.
Proof.
  intros Hnd Hfin. unfold getNodeEarnings, getPendingRewards.
  assert (Hgen : forall L a P,
    (forall m, In m L -> NoDup (JSMap.keys m)) ->
    (forall m, In m L -> forallb (fun kv => is_finite (snd kv)) m = true) ->
    fin_opt (JSMap.get pid P) = true -> a == val0 (JSMap.get pid P) ->
    exists b,
      fold_left (fun total rewards =>
        match JSMap.get pid rewards with
        | Some r => if js_truthy r then js_add total r else total
        | None => total
        end) L (num a) = num b /\
      let P' := fold_left (fun pending rewards =>
        fold_left (fun pending '(pid0, amount) =>
          let current := match JSMap.get pid0 pending with
                         | Some c => if js_truthy c then c else num 0
                         | None => num 0
                         end in
          JSMap.set pid0 (js_add current amount) pending) rewards pending) L P in
      fin_opt (JSMap.get pid P') = true /\ b == val0 (JSMap.get pid P')).
  { induction L as [| m L IH]; intros a P HL HF HP Ha; cbn [fold_left].
    - exists a. split; [reflexivity | split; [exact HP | exact Ha]].
    - destruct (pending_inner pid m P (HL m (or_introl eq_refl)) (HF m (or_introl eq_refl)) HP)
        as [F1 F2].
      assert (Hm : forall r, JSMap.get pid m = Some r -> exists x, r = num x).
      { intros r Hr. apply JSMapFacts.get_in in Hr.
        pose proof (HF m (or_introl eq_refl)) as Hf. rewrite forallb_forall in Hf.
        apply Hf in Hr. simpl in Hr. destruct r as [x | | |]; try discriminate Hr.
        exists x. reflexivity. }
      destruct (JSMap.get pid m) as [r |] eqn:Er.
      + destruct (Hm r eq_refl) as [x ->].
        destruct (js_truthy (num x)) eqn:Et.
        * apply (IH (a + x)); [intros m' H; apply HL; right; exact H
                             | intros m' H; apply HF; right; exact H | exact F1 |].
          rewrite F2, <- Ha. apply Qeq_refl.
        * apply (IH a); [intros m' H; apply HL; right; exact H
                        | intros m' H; apply HF; right; exact H | exact F1 |].
          rewrite F2, <- Ha. simpl in Et.
          apply negb_false_iff, Qeq_bool_iff in Et. simpl. rewrite Et. ring.
      + apply (IH a); [intros m' H; apply HL; right; exact H
                      | intros m' H; apply HF; right; exact H | exact F1 |].
        rewrite F2, <- Ha. simpl. ring. }
  destruct (Hgen (JSMap.values (rewardDistributions s)) 0 [] Hnd Hfin eq_refl (Qeq_refl 0))
    as (b & Hb & Hf & Hv).
  cbv zeta in Hf, Hv. rewrite Hb.
  destruct (JSMap.get pid _) as [[c | | |] |]; try discriminate Hf; simpl in Hv |- *;
    apply Qeq_bool_iff; exact Hv.
Qed.

(** Witnesses: the theorems above applied to the concrete runs of
    [Scenario]. *)
Lemma handleTaskCompletion_finalizes_witness :
  thrown (handleTaskCompletion Scenario.two_accepted "T" "N1" 10) = None /\
  activeTasks (final (handleTaskCompletion Scenario.two_accepted "T" "N1" 10)) =
  activeTasks Scenario.two_accepted.
Proof.
  case_eq (JSMap.get "T" (activeTasks Scenario.two_accepted));
    [intros t Ht | intros H; vm_compute in H; discriminate H].
  case_eq (JSMap.get "T" (rewardDistributions Scenario.two_accepted));
    [intros m Hm | intros H; vm_compute in H; discriminate H].
  pose proof Ht as Ht'. vm_compute in Ht'. injection Ht' as Ht'. subst t.
  pose proof Hm as Hm'. vm_compute in Hm'. injection Hm' as Hm'. subst m.
  destruct (handleTaskCompletion_finalizes Scenario.two_accepted "T" "N1" 10 _ _ Ht eq_refl Hm)
    as (H1 & _ & H3).
  split; [exact H1 |]. apply H3. vm_compute. intros H; discriminate H.
Defined.

Lemma retryTask_spec_witness :
  fst (retryTask default_tasks_config (handleTaskTimeout Scenario.broadcast_only "T") "T") = true /\
  thrown (snd (retryTask default_tasks_config (handleTaskTimeout Scenario.broadcast_only "T") "T"))
    = None.
Proof.
  case_eq (JSMap.get "T" (activeTasks (handleTaskTimeout Scenario.broadcast_only "T")));
    [intros t Ht | intros H; vm_compute in H; discriminate H].
  pose proof Ht as Ht'. vm_compute in Ht'. injection Ht' as Ht'. subst t.
  destruct (retryTask_spec default_tasks_config (handleTaskTimeout Scenario.broadcast_only "T")
              "T" _ Ht eq_refl) as [_ H2].
  destruct (H2 eq_refl) as (F1 & _ & F3 & _).
  split; [exact F1 | exact (proj1 (F3 eq_refl))].
Defined.

Lemma removeNode_task_table_witness :
  getTasksForNode (removeNode Scenario.two_accepted "N1" individual "eu") "N1" = [].
Proof.
  assert (Hnd : NoDup (JSMap.keys (activeTasks Scenario.two_accepted)))
    by (vm_compute; repeat constructor; intros []).
  assert (Hwf : wf_tasks Scenario.two_accepted)
    by (apply TaskEngineFacts.wf_tasks_check; vm_compute; reflexivity).
  exact (proj2 (removeNode_task_table Scenario.two_accepted "N1" individual "eu" Hnd Hwf)).
Defined.

Lemma getNodeEarnings_pending_witness :
  js_eqb (getNodeEarnings (Scenario.c1_before_last 90) "N1")
    (match JSMap.get "N1" (getPendingRewards (Scenario.c1_before_last 90)) with
     | Some r => r | None => num 0 end) = true /\
  js_eqb (getNodeEarnings (Scenario.c1_before_last 90) "N1") (num 90) = true.
Proof.
  split; [| vm_compute; reflexivity].
  apply getNodeEarnings_pending.
  - intros m Hm. vm_compute in Hm. destruct Hm as [<- | []].
    repeat constructor. intros [].
  - intros m Hm. vm_compute in Hm. destruct Hm as [<- | []]. reflexivity.
Defined.

End TaskEngineExtraFacts.

(** * Validator pools: [addNode], [removeNode] and [findPeer] *)
Module PoolFacts.
Import ValidatorSystem.
Local Open Scope string_scope.

Lemma values_set_in {V} (k : string) (v x : V) (m : JSMap.t V) :
  In x (JSMap.values (JSMap.set k v m)) -> x = v \/ In x (JSMap.values m).
Proof.
  unfold JSMap.values. induction m as [| [k' v'] m IH]; simpl; intros H.
  - destruct H as [H | []]. left. symmetry. exact H.
  - destruct (String.eqb k k'); simpl in H; destruct H as [H | H].
    + left. symmetry. exact H.
    + right. right. exact H.
    + right. left. exact H.
    + destruct (IH H) as [H1 | H1]; [left; exact H1 | right; right; exact H1].
Qed.

Lemma values_delete_in {V} (k : string) (x : V) (m : JSMap.t V) :
  In x (JSMap.values (JSMap.delete k m)) -> In x (JSMap.values m).
Proof.
  unfold JSMap.values. induction m as [| [k' v'] m IH]; simpl; intros H; [exact H |].
  destruct (String.eqb k k'); simpl in H; [right; apply IH; exact H |].
  destruct H as [H | H]; [left; exact H | right; apply IH; exact H].
Qed.

Lemma in_values_of_get {V} (k : string) (m : JSMap.t V) (v : V) :
  JSMap.get k m = Some v -> In v (JSMap.values m).
Proof.
  intros H. apply JSMapFacts.get_in in H. unfold JSMap.values.
  apply (in_map snd) in H. exact H.
Qed.

Lemma find_none_of_all {A} (f : A -> bool) (l : list A) :
  (forall x, In x l -> f x = false) -> find f l = None.
Proof.
  induction l as [| x l IH]; simpl; intros H; [reflexivity |].
  rewrite (H x (or_introl eq_refl)). apply IH. intros y Hy. apply H. right. exact Hy.
Qed.

Lemma find_unique {A} (f : A -> bool) (l : list A) (p : A) :
  In p l -> f p = true -> (forall x, In x l -> f x = true -> x = p) -> find f l = Some p.
Proof.
  induction l as [| x l IH]; simpl; intros Hin Hp Hu; [destruct Hin |].
  destruct (f x) eqn:Ef.
  - rewrite (Hu x (or_introl eq_refl) Ef). reflexivity.
  - destruct Hin as [Hin | Hin]; [subst x; congruence |].
    apply IH; [exact Hin | exact Hp |]. intros y Hy Hfy. apply Hu; [right; exact Hy | exact Hfy].
Qed.

Lemma findPeer_none_iff (s : State) (pid : string) :
  findPeer s pid = None <->
  JSMap.get pid (globalValidators s) = None /\
  (forall M v, In M (JSMap.values (regionalValidators s)) -> In v (JSMap.values M) ->
     peerId (info v) <> pid) /\
  (forall M v, In M (JSMap.values (individualNodes s)) -> In v (JSMap.values M) ->
     peerId (info v) <> pid).
Proof.
  unfold findPeer. split.
  - destruct (JSMap.get pid (globalValidators s)); [discriminate |].
    destruct (find _ (flat_map JSMap.values (JSMap.values (regionalValidators s)))) eqn:E1;
      [discriminate |].
    intros E2. split; [reflexivity |].
    split; intros M v HM Hv Heq.
    + assert (Hf := find_none _ _ E1 v (proj2 (in_flat_map _ _ _) (ex_intro _ M (conj HM Hv)))).
      simpl in Hf. apply String.eqb_neq in Hf. exact (Hf Heq).
    + assert (Hf := find_none _ _ E2 v (proj2 (in_flat_map _ _ _) (ex_intro _ M (conj HM Hv)))).
      simpl in Hf. apply String.eqb_neq in Hf. exact (Hf Heq).
  - intros [HG [HR HI]]. rewrite HG.
    rewrite find_none_of_all, find_none_of_all; [reflexivity | |];
      intros x Hx; apply in_flat_map in Hx; destruct Hx as [M [HM Hx]];
      apply String.eqb_neq; [apply (HI M x HM Hx) | apply (HR M x HM Hx)].
Qed.

Lemma no_pid_prep (L : JSMap.t (JSMap.t ConnectedPeer)) (r pid : string) :
  (forall M v, In M (JSMap.values L) -> In v (JSMap.values M) -> peerId (info v) <> pid) ->
  forall M v, In M (JSMap.values (if JSMap.has r L then L else JSMap.set r [] L)) ->
    In v (JSMap.values M) -> peerId (info v) <> pid.
Proof.
  intros H M v HM Hv. destruct (JSMap.has r L); [exact (H M v HM Hv) |].
  apply values_set_in in HM. destruct HM as [HM | HM]; [subst M; destruct Hv | exact (H M v HM Hv)].
Qed.

Lemma no_pid_set (L : JSMap.t (JSMap.t ConnectedPeer)) (r pid : string) (X : JSMap.t ConnectedPeer) :
  (forall M v, In M (JSMap.values L) -> In v (JSMap.values M) -> peerId (info v) <> pid) ->
  (forall v, In v (JSMap.values X) -> peerId (info v) <> pid) ->
  forall M v, In M (JSMap.values (JSMap.set r X L)) -> In v (JSMap.values M) ->
    peerId (info v) <> pid.
Proof.
  intros H HX M v HM Hv. apply values_set_in in HM.
  destruct HM as [HM | HM]; [subst M; exact (HX v Hv) | exact (H M v HM Hv)].
Qed.

Lemma no_pid_get (L : JSMap.t (JSMap.t ConnectedPeer)) (r pid : string) :
  (forall M v, In M (JSMap.values L) -> In v (JSMap.values M) -> peerId (info v) <> pid) ->
  forall v, In v (JSMap.values (match JSMap.get r L with Some m => m | None => [] end)) ->
    peerId (info v) <> pid.
Proof.
  intros H v Hv. destruct (JSMap.get r L) as [m |] eqn:E; [| destruct Hv].
  exact (H m v (in_values_of_get _ _ _ E) Hv).
Qed.

Lemma visit_pools (pid : string) (s : State) (k : string) :
  globalValidators (removeNode_visit pid s k) = globalValidators s /\
  regionalValidators (removeNode_visit pid s k) = regionalValidators s /\
  individualNodes (removeNode_visit pid s k) = individualNodes s.
Proof.
  unfold removeNode_visit. destruct (JSMap.get k (activeTasks s)) as [t |]; [| auto].
  destruct (includes pid (assignedNodes (status t))); [| auto].
  unfold handleNodeFailure. destruct (JSMap.get (taskId t) (activeTasks s)); [| auto].
  destruct (assignedNodes (status (nodeFailureTask t0 pid))); auto.
Qed.

Lemma fold_pools (pid : string) (ks : list string) :
  forall s,
  globalValidators (fold_left (removeNode_visit pid) ks s) = globalValidators s /\
  regionalValidators (fold_left (removeNode_visit pid) ks s) = regionalValidators s /\
  individualNodes (fold_left (removeNode_visit pid) ks s) = individualNodes s.
Proof.
  induction ks as [| k ks IH]; intros s; simpl; [auto |].
  destruct (IH (removeNode_visit pid s k)) as [H1 [H2 H3]].
  destruct (visit_pools pid s k) as [G1 [G2 G3]].
  rewrite H1, H2, H3, G1, G2, G3. auto.
Qed.

(** [addNode] followed by [removeNode] with the peer's own type and region
    leaves no pool holding the peer, if none held it before. *)
Lemma findPeer_add_remove (s : State) (p : ConnectedPeer) :
  findPeer s (peerId (info p)) = None ->
  findPeer (removeNode (addNode s p) (peerId (info p)) (nodeType (info p)) (region (info p)))
    (peerId (info p)) = None.
Proof.
  set (pid := peerId (info p)). set (r := region (info p)).
  intros H. apply findPeer_none_iff in H. destruct H as [HG [HR HI]].
  apply findPeer_none_iff. unfold removeNode.
  destruct (fold_pools pid (JSMap.keys (activeTasks (addNode s p))) (addNode s p))
    as [F1 [F2 F3]].
  unfold addNode. fold r pid. fold r pid in F1, F2, F3. unfold addNode in F1, F2, F3.
  fold r pid in F1, F2, F3.
  destruct (nodeType (info p)); cbn [set_pools globalValidators regionalValidators individualNodes];
    rewrite ?F1, ?F2, ?F3; cbn [set_pools globalValidators regionalValidators individualNodes].
  - (* individual *)
    rewrite JSMapFacts.get_set_eq, JSMapFacts.set_set, JSMapFacts.delete_set_eq.
    split; [exact HG |]. split; [apply no_pid_prep; exact HR |].
    apply no_pid_set; [apply no_pid_prep; exact HI |].
    intros v Hv. apply values_delete_in in Hv. revert v Hv.
    apply no_pid_get. apply no_pid_prep. exact HI.
  - (* regional_node *)
    rewrite JSMapFacts.get_set_eq, JSMapFacts.set_set, JSMapFacts.delete_set_eq.
    split; [exact HG |]. split; [| apply no_pid_prep; exact HI].
    apply no_pid_set; [apply no_pid_prep; exact HR |].
    intros v Hv. apply values_delete_in in Hv. revert v Hv.
    apply no_pid_get. apply no_pid_prep. exact HR.
  - (* global_node *)
    rewrite JSMapFacts.delete_set_eq. split; [| split].
    + apply JSMapFacts.get_delete_eq.
    + apply no_pid_prep. exact HR.
    + apply no_pid_prep. exact HI.
Qed.

(** [addNode] files a peer no pool held before so that [findPeer] finds it. *)
Lemma findPeer_addNode (s : State) (p : ConnectedPeer) :
  findPeer s (peerId (info p)) = None -> findPeer (addNode s p) (peerId (info p)) = Some p.
Proof.
  set (pid := peerId (info p)). set (r := region (info p)).
  intros H. apply findPeer_none_iff in H. destruct H as [HG [HR HI]].
  assert (Hpid : String.eqb (peerId (info p)) pid = true) by apply String.eqb_refl.
  assert (Huniq : forall L : JSMap.t (JSMap.t ConnectedPeer),
    (forall M v, In M (JSMap.values L) -> In v (JSMap.values M) -> peerId (info v) <> pid) ->
    find (fun q => String.eqb (peerId (info q)) pid)
      (flat_map JSMap.values (JSMap.values
         (JSMap.set r (JSMap.set pid p (match JSMap.get r L with Some m => m | None => [] end))
            L))) = Some p).
  { intros L HL. apply find_unique; [| exact Hpid |].
    - apply in_flat_map. eexists. split; [apply (in_values_of_get r), JSMapFacts.get_set_eq |].
      apply (in_values_of_get pid), JSMapFacts.get_set_eq.
    - intros x Hx Hfx. apply String.eqb_eq in Hfx. apply in_flat_map in Hx.
      destruct Hx as [M [HM Hx]]. apply values_set_in in HM. destruct HM as [HM | HM].
      + subst M. apply values_set_in in Hx. destruct Hx as [Hx | Hx]; [exact Hx |].
        exfalso. exact (no_pid_get L r pid HL x Hx Hfx).
      + exfalso. exact (HL M x HM Hx Hfx). }
  unfold addNode, findPeer. fold r pid.
  destruct (nodeType (info p)); cbn [set_pools globalValidators regionalValidators individualNodes].
  - rewrite HG, find_none_of_all; [apply Huniq; apply no_pid_prep; exact HI |].
    intros x Hx. apply in_flat_map in Hx. destruct Hx as [M [HM Hx]].
    apply String.eqb_neq. exact (no_pid_prep _ r pid HR M x HM Hx).
  - rewrite HG, Huniq; [reflexivity |]. apply no_pid_prep. exact HR.
  - rewrite JSMapFacts.get_set_eq. reflexivity.
Qed.

(** A peer that no validator-system pool holds is found by [findPeer] once
    [addNode] has filed it, and is held by no pool again after [removeNode]
    with its own id, type and region: the two operations are inverse as far
    as the pools are concerned. *)
Theorem addNode_removeNode_roundtrip (s : State) (p : ConnectedPeer) :
  findPeer s (peerId (info p)) = None ->
  findPeer (addNode s p) (peerId (info p)) = Some p /\
  findPeer (removeNode (addNode s p) (peerId (info p)) (nodeType (info p)) (region (info p)))
    (peerId (info p)) = None.
Proof.
  intros H. split; [apply findPeer_addNode | apply findPeer_add_remove]; exact H.
Qed.

(** Witness: a new individual node "N3" joins and leaves [Scenario.net]. *)
Lemma addNode_removeNode_roundtrip_witness :
  findPeer (addNode Scenario.net (Scenario.mkpeer "N3" individual aggregator "eu")) "N3" =
    Some (Scenario.mkpeer "N3" individual aggregator "eu") /\
  findPeer (removeNode (addNode Scenario.net (Scenario.mkpeer "N3" individual aggregator "eu"))
    "N3" individual "eu") "N3" = None.
Proof.
  exact (addNode_removeNode_roundtrip Scenario.net (Scenario.mkpeer "N3" individual aggregator "eu")
           ltac:(vm_compute; reflexivity)).
Defined.

End PoolFacts.

(** * Signaling server: join, leave and task broadcast *)
Module SignalingExtraFacts.
Import SignalingServer.
Local Open Scope string_scope.

Lemma includes_set_add (x : string) (l : list string) : includes x (set_add x l) = true.
Proof.
  unfold set_add. destruct (includes x l) eqn:E; [exact E |].
  unfold includes. rewrite existsb_app. simpl. rewrite String.eqb_refl, orb_true_r.
  reflexivity.
Qed.

Lemma existsb_false_of_all {A} (f : A -> bool) (l : list A) :
  (forall x, In x l -> f x = false) -> existsb f l = false.
Proof.
  intros H. destruct (existsb f l) eqn:E; [| reflexivity].
  apply existsb_exists in E. destruct E as [x [Hx Hf]]. rewrite (H x Hx) in Hf.
  discriminate Hf.
Qed.

Lemma existsb_false_in {A} (f : A -> bool) (l : list A) (x : A) :
  existsb f l = false -> In x l -> f x = false.
Proof.
  intros H Hx. destruct (f x) eqn:E; [| reflexivity].
  assert (Ht : existsb f l = true) by (apply existsb_exists; exists x; split; assumption).
  congruence.
Qed.

Lemma present_nonempty (pid : string) : pid <> "" -> present (Some pid) = Some pid.
Proof.
  intros H. unfold present. destruct (String.eqb pid "") eqn:E; [| reflexivity].
  apply String.eqb_eq in E. contradiction.
Qed.

(** A well-formed [join] (peer id, node type, tier and region present) from
    an individual node, or from a validator that passes the eligibility
    check, registers the peer, if no validator-system pool held its id.  The
    registry holds it under its id with the announced type, tier, region and
    balance (0 when absent).  Its region's member set contains it, and so does
    the validator set unless it is an individual node.  [findPeer] of the
    validator system finds it.  On an open socket the first message written
    is [network_state] to the joining socket. *)
Theorem handleJoin_registers (vc : ValidatorConfig) (s : State) (ws_ok : bool) (m : JoinMessage)
    (pid : string) (nt : NodeType) (tier : NodeTier) (rg : string) :
  present (j_peerId m) = Some pid -> j_nodeType m = Some nt -> j_nodeTier m = Some tier ->
  present (j_region m) = Some rg ->
  nt = individual \/
  validateValidatorEligibility vc tier nt
    (match j_tokenBalance m with Some b => b | None => 0 end) = true ->
  ValidatorSystem.findPeer (validatorSystem s) pid = None ->
  let s2 := fst (handleJoin vc s ws_ok m) in
  exists peer,
    JSMap.get pid (peers s2) = Some peer /\
    info peer = {| peerId := pid; nodeType := nt; nodeTier := tier; region := rg;
                   tokenBalance := match j_tokenBalance m with Some b => b | None => 0 end |} /\
    ws_open peer = ws_ok /\
    ValidatorSystem.findPeer (validatorSystem s2) pid = Some peer /\
    (exists ri, JSMap.get rg (regions s2) = Some ri /\ includes pid (rpeers ri) = true /\
       (nt <> individual -> includes pid (rvalidators ri) = true)) /\
    (ws_ok = true -> hd_error (snd (handleJoin vc s ws_ok m)) = Some (to_ws m_network_state)).
Proof.
  intros Hp Hnt Htier Hrg Hel Hf. cbv zeta. unfold handleJoin. rewrite Hp, Hnt, Htier, Hrg.
  assert (Hc : (match nt with individual => false | _ => true end) &&
               negb (validateValidatorEligibility vc tier nt
                       (match j_tokenBalance m with Some b => b | None => 0 end)) = false).
  { destruct Hel as [-> | Hv]; [reflexivity | rewrite Hv; apply andb_false_r]. }
  rewrite Hc. cbv zeta. cbn [fst snd]. eexists. split; [apply JSMapFacts.get_set_eq |].
  split; [reflexivity |]. split; [reflexivity |]. split.
  - apply PoolFacts.findPeer_addNode. exact Hf.
  - split.
    + eexists. split; [apply JSMapFacts.get_set_eq |]. cbn [rpeers rvalidators].
      split; [apply includes_set_add |].
      intros Hn. destruct nt; [contradiction | |]; apply includes_set_add.
    + intros ->. reflexivity.
Qed.

(** A peer id that no part of the server holds (registry, region sets,
    validator-system pools) is held nowhere again after a [join] carrying
    that id, whatever its outcome (rejected, malformed or accepted), followed
    by the [leave] of that id. *)
Theorem join_then_leave_unregisters (vc : ValidatorConfig) (s : State) (ws_ok : bool)
    (m : JoinMessage) (pid : string) :
  registered s pid = false -> j_peerId m = Some pid -> pid <> "" ->
  registered (fst (handleLeave (fst (handleJoin vc s ws_ok m)) pid)) pid = false.
Proof.
  intros Hreg Hj Hne. unfold registered in Hreg.
  apply orb_false_iff in Hreg. destruct Hreg as [Hreg HV].
  apply orb_false_iff in Hreg. destruct Hreg as [HP HR].
  destruct (ValidatorSystem.findPeer (validatorSystem s) pid) eqn:Hf; [discriminate |].
  assert (Hleave0 : handleLeave s pid = (s, [])).
  { unfold handleLeave. unfold JSMap.has in HP.
    destruct (JSMap.get pid (peers s)); [discriminate | reflexivity]. }
  assert (Hs : registered s pid = false).
  { unfold registered. rewrite HP, HR. simpl. rewrite Hf. reflexivity. }
  unfold handleJoin. rewrite Hj, present_nonempty by exact Hne.
  destruct (j_nodeType m) as [nt |]; [| cbn -[handleLeave registered]; rewrite Hleave0; exact Hs].
  destruct (j_nodeTier m) as [tier |]; [| cbn -[handleLeave registered]; rewrite Hleave0; exact Hs].
  destruct (present (j_region m)) as [rg |]; [| cbn -[handleLeave registered]; rewrite Hleave0; exact Hs].
  destruct ((match nt with individual => false | _ => true end) && _);
    [cbn -[handleLeave registered]; rewrite Hleave0; exact Hs |].
  cbv zeta. cbn [fst]. unfold handleLeave. cbn [peers regions validatorSystem updateRegionInfo].
  rewrite JSMapFacts.get_set_eq. cbn [info region nodeType].
  rewrite JSMapFacts.get_set_eq, JSMapFacts.set_set. cbn [fst].
  unfold registered. cbn [peers regions validatorSystem].
  apply orb_false_iff. split; [apply orb_false_iff; split |].
  - unfold JSMap.has. rewrite JSMapFacts.delete_set_eq, JSMapFacts.get_delete_eq. reflexivity.
  - apply existsb_false_of_all. intros ri Hri.
    apply PoolFacts.values_set_in in Hri. destruct Hri as [-> | Hri].
    + cbn [rpeers rvalidators]. unfold set_delete.
      rewrite TaskEngineFacts.includes_filter_removed. cbn [orb].
      destruct nt; try apply TaskEngineFacts.includes_filter_removed.
      cbn [rvalidators].
      destruct (JSMap.get rg (regions s)) as [ri0 |] eqn:Eri; [| reflexivity].
      pose proof (existsb_false_in _ _ _ HR (PoolFacts.in_values_of_get _ _ _ Eri)) as H0.
      apply orb_false_iff in H0. exact (proj2 H0).
    + exact (existsb_false_in _ _ _ HR Hri).
  - set (p := {| ws_open := ws_ok;
                 info := {| peerId := pid; nodeType := nt; nodeTier := tier; region := rg;
                            tokenBalance := match j_tokenBalance m with Some b => b | None => 0 end |};
                 cp_status := {| online := true;
                                 resources := {| cpu := 0; memory := 0; storage := 0;
                                                 bandwidth := 0 |};
                                 ns_activeTasks := 0; ns_completedTasks := 0 |} |}).
    change (match ValidatorSystem.findPeer
              (ValidatorSystem.removeNode (ValidatorSystem.addNode (validatorSystem s) p)
                 (peerId (info p)) (nodeType (info p)) (region (info p))) (peerId (info p))
            with Some _ => true | None => false end = false).
    rewrite PoolFacts.findPeer_add_remove; [reflexivity | exact Hf].
Qed.

(** [handleTaskBroadcast] acts only on a message that carries a task and a
    sender id registered as a [global_node]: otherwise nothing changes and
    nothing is sent.  From a global node, a task failing validation leaves
    the state unchanged.  The only message is an [error] "Task broadcast
    failed" to the sender when its socket is open.  A valid task is stored in
    the validator system under its id, and no error is sent. *)
Theorem handleTaskBroadcast_guard (cfg : TasksConfig) (s : State) (task : option Task)
    (sender : option string) :
  (task = None \/ present sender = None \/
   (exists pid, present sender = Some pid /\
      match JSMap.get pid (peers s) with
      | Some peer => nodeType (info peer) <> global_node
      | None => True
      end) ->
   handleTaskBroadcast cfg s task sender = (s, [])) /\
  (forall t pid peer, task = Some t -> present sender = Some pid ->
     JSMap.get pid (peers s) = Some peer -> nodeType (info peer) = global_node ->
     (ValidatorSystem.validateTaskRequirements cfg t = false ->
        handleTaskBroadcast cfg s task sender =
          (s, if ws_open peer then [to_peer pid (m_error "Task broadcast failed")] else [])) /\
     (ValidatorSystem.validateTaskRequirements cfg t = true ->
        JSMap.get (taskId t)
          (ValidatorSystem.activeTasks (validatorSystem (fst (handleTaskBroadcast cfg s task sender))))
          = Some t /\
        forall pid' e, ~ In (to_peer pid' (m_error e)) (snd (handleTaskBroadcast cfg s task sender)))).
Proof.
  unfold handleTaskBroadcast. split.
  - intros [H | [H | [pid [H Hg]]]]; rewrite H.
    + reflexivity.
    + destruct task; reflexivity.
    + destruct task; [| reflexivity].
      destruct (JSMap.get pid (peers s)) as [peer |]; [| reflexivity].
      destruct (nodeType (info peer)); [reflexivity | reflexivity | contradiction].
  - intros t pid peer Ht Hp Hg Hn. rewrite Ht, Hp, Hg, Hn. cbn [NodeType_eqb]. split.
    + intros Hv. unfold ValidatorSystem.broadcastTask. rewrite Hv. cbn.
      destruct s; reflexivity.
    + intros Hv. unfold ValidatorSystem.broadcastTask. rewrite Hv. cbn [negb fst snd].
      split; [apply JSMapFacts.get_set_eq |].
      intros pid' e Hin. rewrite app_nil_r in Hin. apply in_map_iff in Hin.
      destruct Hin as [[q msg] [Heq Hin]]. simpl in Heq. injection Heq as _ Hm.
      rewrite Hm in Hin.
      apply in_flat_map in Hin. destruct Hin as [[k vs] [_ Hin]].
      destruct (ValidatorSystem.selectRegionalValidator _) as [v |]; [| destruct Hin].
      unfold ValidatorSystem.forwardMessage in Hin. destruct (ws_open v); [| destruct Hin].
      destruct Hin as [Hin | []]. discriminate Hin.
Qed.

(** Witnesses: an individual node "P" joins an empty server in region "eu". *)
Lemma handleJoin_registers_witness :
  exists peer,
    JSMap.get "P" (peers (fst (handleJoin default_validator_config
      {| peers := []; regions := []; validatorSystem := ValidatorSystem.empty_state |} true
      {| j_peerId := Some "P"; j_nodeType := Some individual; j_nodeTier := Some inference;
         j_tokenBalance := None; j_region := Some "eu" |}))) = Some peer.
Proof.
  destruct (handleJoin_registers default_validator_config
              {| peers := []; regions := []; validatorSystem := ValidatorSystem.empty_state |} true
              {| j_peerId := Some "P"; j_nodeType := Some individual; j_nodeTier := Some inference;
                 j_tokenBalance := None; j_region := Some "eu" |}
              "P" individual inference "eu" eq_refl eq_refl eq_refl eq_refl
              (or_introl eq_refl) eq_refl) as (peer & H1 & _).
  exists peer. exact H1.
Defined.

Lemma join_then_leave_unregisters_witness :
  registered (fst (handleLeave (fst (handleJoin default_validator_config
      {| peers := []; regions := []; validatorSystem := ValidatorSystem.empty_state |} true
      {| j_peerId := Some "P"; j_nodeType := Some individual; j_nodeTier := Some inference;
         j_tokenBalance := None; j_region := Some "eu" |})) "P")) "P" = false.
Proof.
  apply (join_then_leave_unregisters default_validator_config
           {| peers := []; regions := []; validatorSystem := ValidatorSystem.empty_state |} true
           {| j_peerId := Some "P"; j_nodeType := Some individual; j_nodeTier := Some inference;
              j_tokenBalance := None; j_region := Some "eu" |} "P" eq_refl eq_refl).
  intros H. discriminate H.
Defined.

End SignalingExtraFacts.

(** * DHT: leaving, remote store and lookup requests, peer discovery *)
Module DHTExtraFacts.
Import DHTNetwork.
Local Open Scope string_scope.


(** A [store] request from [node] with a nonempty key and a defined value is
    written into the local store whether or not the node counts itself
    connected, leaving the other fields as they were; a [store_response] is
    sent exactly when [activeConnections] holds an open socket for [node], and
    then a [findValue] request from [node] for that key is answered with the
    value.  A [store] request with a missing or empty key or an undefined
    value, and a [findValue] request with a missing or empty key or from a
    node without an open socket, change nothing and get no answer. *)
Theorem handleStore_then_handleFindValue {Value : Type} (s : State Value) (node : DHTNode)
    (k : string) (v : Value) :
  (k <> "" ->
     data (fst (handleStore s node (Some k) (Some v))) = JSMap.set k v (data s) /\
     connected (fst (handleStore s node (Some k) (Some v))) = connected s /\
     nodes (fst (handleStore s node (Some k) (Some v))) = nodes s /\
     activeConnections (fst (handleStore s node (Some k) (Some v))) = activeConnections s /\
     snd (handleStore s node (Some k) (Some v)) = sendResponse s node /\
     (sendResponse s node = true ->
        handleFindValue (fst (handleStore s node (Some k) (Some v))) node (Some k) =
          Some (Some v))) /\
  (forall key value, key = None \/ key = Some "" \/ value = None ->
     handleStore s node key value = (s, false)) /\
  (forall key, key = None \/ key = Some "" \/ sendResponse s node = false ->
     handleFindValue s node key = None).
Proof.
  split; [| split].
  - intros Hk. unfold handleStore. destruct (String.eqb k "") eqn:E.
    + apply String.eqb_eq in E. contradiction.
    + split; [reflexivity |]. split; [reflexivity |]. split; [reflexivity |].
      split; [reflexivity |]. split; [reflexivity |].
      intros Hs. unfold handleFindValue. rewrite E. simpl.
      unfold sendResponse in Hs |- *. simpl. rewrite Hs. rewrite JSMapFacts.get_set_eq.
      reflexivity.
  - intros key value [-> | [-> | ->]]; unfold handleStore; [reflexivity | |].
    + destruct value; reflexivity.
    + destruct key; reflexivity.
  - intros key [-> | [-> | Hs]]; [reflexivity | reflexivity |].
    destruct key as [key |]; [| reflexivity]. unfold handleFindValue. rewrite Hs.
    destruct (String.eqb key ""); reflexivity.
Qed.

Lemma includes_In (x : string) (l : list string) : includes x l = true <-> In x l.
Proof.
  unfold includes. rewrite existsb_exists. split.
  - intros [y [Hy Hxy]]. apply String.eqb_eq in Hxy. subst. exact Hy.
  - intros H. exists x. split; [exact H | apply String.eqb_refl].
Qed.

Lemma NoDup_snoc {A} (l : list A) (x : A) : NoDup l -> ~ In x l -> NoDup (l ++ [x]).
Proof.
  induction l as [| y l IH]; simpl; intros Hnd Hn.
  - constructor; [intros [] | constructor].
  - inversion Hnd as [| ? ? Hy Hnd']; subst. constructor.
    + intros H. apply in_app_or in H. destruct H as [H | [H | []]]; [contradiction |].
      apply Hn. left. symmetry. exact H.
    + apply IH; [exact Hnd' |]. intros H. apply Hn. right. exact H.
Qed.

(** The invariant of [getPeers]' accumulator: [seen] is the ids of
    [peers], without duplicates, and every collected node matches. *)
Lemma add_fold_inv (matches : DHTNode -> bool) :
  forall l acc,
  fst acc = map id (snd acc) -> NoDup (fst acc) ->
  (forall n, In n (snd acc) -> matches n = true) ->
  let acc' := fold_left (getPeers_add matches) l acc in
  fst acc' = map id (snd acc') /\ NoDup (fst acc') /\
  (forall n, In n (snd acc') -> matches n = true) /\
  (forall n, In n (snd acc') -> In n (snd acc) \/ In n l) /\
  (forall x, In x (fst acc) -> In x (fst acc')) /\
  (forall n, In n l -> matches n = true -> In (id n) (fst acc')).
Proof.
  induction l as [| n l IH]; intros [seen peers] Hs Hnd Hm; cbv zeta; simpl in *.
  - split; [exact Hs |]. split; [exact Hnd |]. split; [exact Hm |].
    split; [intros n H; left; exact H |]. split; [auto | intros n []].
  - destruct (negb (includes (id n) seen) && matches n) eqn:E.
    + apply andb_true_iff in E. destruct E as [E1 E2]. apply negb_true_iff in E1.
      assert (Hni : ~ In (id n) seen) by (intros H; apply includes_In in H; congruence).
      destruct (IH (seen ++ [id n], peers ++ [n])%list) as (H1 & H2 & H3 & H4 & H5 & H6);
        simpl.
      * rewrite Hs, map_app. reflexivity.
      * apply NoDup_snoc; assumption.
      * intros x Hx. apply in_app_or in Hx. destruct Hx as [Hx | [Hx | []]];
          [apply Hm; exact Hx | subst; exact E2].
      * split; [exact H1 |]. split; [exact H2 |]. split; [exact H3 |]. split.
        -- intros x Hx. destruct (H4 x Hx) as [Hx' | Hx'].
           ++ apply in_app_or in Hx'. destruct Hx' as [Hx' | [Hx' | []]];
                [left; exact Hx' | right; left; exact Hx'].
           ++ right. right. exact Hx'.
        -- split.
           ++ intros x Hx. apply H5. apply in_or_app. left. exact Hx.
           ++ intros x [Hx | Hx] Hmx.
              ** subst x. apply H5. apply in_or_app. right. left. reflexivity.
              ** exact (H6 x Hx Hmx).
    + destruct (IH (seen, peers)) as (H1 & H2 & H3 & H4 & H5 & H6); simpl;
        [exact Hs | exact Hnd | exact Hm |].
      split; [exact H1 |]. split; [exact H2 |]. split; [exact H3 |]. split.
      * intros x Hx. destruct (H4 x Hx) as [Hx' | Hx']; [left; exact Hx' | right; right; exact Hx'].
      * split; [exact H5 |]. intros x [Hx | Hx] Hmx; [| exact (H6 x Hx Hmx)].
        subst x. rewrite Hmx, andb_true_r in E. apply negb_false_iff in E.
        apply H5. apply includes_In. exact E.
Qed.

Lemma ask_fold_inv (matches : DHTNode -> bool) (ask : DHTNode -> option (list DHTNode)) :
  forall ns acc,
  fst acc = map id (snd acc) -> NoDup (fst acc) ->
  (forall n, In n (snd acc) -> matches n = true) ->
  let acc' := fold_left (fun acc n =>
                match ask n with
                | Some ps => fold_left (getPeers_add matches) ps acc
                | None => acc
                end) ns acc in
  fst acc' = map id (snd acc') /\ NoDup (fst acc') /\
  (forall n, In n (snd acc') -> matches n = true) /\
  (forall n, In n (snd acc') ->
     In n (snd acc) \/ exists m ps, In m ns /\ ask m = Some ps /\ In n ps) /\
  (forall x, In x (fst acc) -> In x (fst acc')) /\
  (forall m ps n, In m ns -> ask m = Some ps -> In n ps -> matches n = true ->
     In (id n) (fst acc')).
Proof.
  induction ns as [| m ns IH]; intros acc Hs Hnd Hm; cbv zeta; simpl.
  - split; [exact Hs |]. split; [exact Hnd |]. split; [exact Hm |].
    split; [intros n H; left; exact H |]. split; [auto | intros m ps n []].
  - destruct (ask m) as [ps |] eqn:Eask.
    + destruct (add_fold_inv matches ps acc Hs Hnd Hm) as (A1 & A2 & A3 & A4 & A5 & A6).
      destruct (IH _ A1 A2 A3) as (H1 & H2 & H3 & H4 & H5 & H6).
      split; [exact H1 |]. split; [exact H2 |]. split; [exact H3 |]. split.
      * intros n Hn. destruct (H4 n Hn) as [Hn' | (m' & ps' & Hm' & Ha & Hp)].
        -- destruct (A4 n Hn') as [Hn'' | Hn'']; [left; exact Hn'' |].
           right. exists m, ps. split; [left; reflexivity | split; [exact Eask | exact Hn'']].
        -- right. exists m', ps'. split; [right; exact Hm' | split; assumption].
      * split; [intros x Hx; apply H5, A5, Hx |].
        intros m' ps' n [Hm' | Hm'] Ha Hp Hmn.
        -- subst m'. rewrite Eask in Ha. injection Ha as <-. apply H5. exact (A6 n Hp Hmn).
        -- exact (H6 m' ps' n Hm' Ha Hp Hmn).
    + destruct (IH _ Hs Hnd Hm) as (H1 & H2 & H3 & H4 & H5 & H6).
      split; [exact H1 |]. split; [exact H2 |]. split; [exact H3 |]. split.
      * intros n Hn. destruct (H4 n Hn) as [Hn' | (m' & ps' & Hm' & Ha & Hp)];
          [left; exact Hn' |].
        right. exists m', ps'. split; [right; exact Hm' | split; assumption].
      * split; [exact H5 |]. intros m' ps' n [Hm' | Hm'] Ha Hp Hmn.
        -- subst m'. congruence.
        -- exact (H6 m' ps' n Hm' Ha Hp Hmn).
Qed.

(** [getPeers filter] on a disconnected node throws "Not connected to DHT
    network".  On a connected one it succeeds and returns nodes with
    pairwise distinct ids, each matching the filter and drawn from the
    direct connections, the routing table or a peer list some routing-table
    node answered with; and every matching node from those sources has its
    id among the results. *)
Theorem getPeers_spec {Value : Type} (matches : DHTNode -> bool)
    (ask : DHTNode -> option (list DHTNode)) (direct : JSMap.t DHTNode) (s : State Value) :
  (connected s = false ->
     getPeers matches ask direct s = (Some "Not connected to DHT network", [])) /\
  (connected s = true ->
   let res := snd (getPeers matches ask direct s) in
   fst (getPeers matches ask direct s) = None /\
   NoDup (map id res) /\
   (forall n, In n res -> matches n = true /\
      (In n (JSMap.values direct) \/ In n (JSMap.values (nodes s)) \/
       exists m ps, In m (JSMap.values (nodes s)) /\ ask m = Some ps /\ In n ps)) /\
   (forall n, In n (JSMap.values direct) \/ In n (JSMap.values (nodes s)) \/
       (exists m ps, In m (JSMap.values (nodes s)) /\ ask m = Some ps /\ In n ps) ->
     matches n = true -> In (id n) (map id res))).
Proof.
  unfold getPeers. split; [intros H; rewrite H; reflexivity |].
  intros H. rewrite H. cbv zeta. cbn [negb fst snd].
  destruct (add_fold_inv matches (JSMap.values direct) ([], [])) as (A1 & A2 & A3 & A4 & A5 & A6);
    [reflexivity | constructor | intros n [] |].
  destruct (add_fold_inv matches (JSMap.values (nodes s)) _ A1 A2 A3)
    as (B1 & B2 & B3 & B4 & B5 & B6).
  destruct (ask_fold_inv matches ask (JSMap.values (nodes s)) _ B1 B2 B3)
    as (C1 & C2 & C3 & C4 & C5 & C6).
  split; [reflexivity |]. split; [rewrite <- C1; exact C2 |]. split.
  - intros n Hn. split; [exact (C3 n Hn) |].
    destruct (C4 n Hn) as [Hb | Hask]; [| right; right; exact Hask].
    destruct (B4 n Hb) as [Ha | Hnodes]; [| right; left; exact Hnodes].
    destruct (A4 n Ha) as [[] | Hd]. left. exact Hd.
  - intros n Hsrc Hmn. rewrite <- C1.
    destruct Hsrc as [Hd | [Hnodes | (m & ps & Hm & Ha & Hp)]].
    + apply C5, B5, (A6 n Hd Hmn).
    + apply C5, (B6 n Hnodes Hmn).
    + exact (C6 m ps n Hm Ha Hp Hmn).
Qed.

End DHTExtraFacts.

(** * Global node coordinator: health checks, registration, removal *)
Module CoordinatorExtraFacts.
Import GlobalNodeCoordinator.
Local Open Scope string_scope.

Lemma fold_check_preserves (ping : ConnectedPeer -> bool) :
  forall l s,
  globalNodes (fold_left (checkNodeHealth ping) l s) = globalNodes s /\
  failoverHistory (fold_left (checkNodeHealth ping) l s) = failoverHistory s /\
  activeTasks (fold_left (checkNodeHealth ping) l s) = activeTasks s.
Proof.
  induction l as [| [k q] l IH]; intros s; cbn [fold_left]; [auto |].
  destruct (IH (checkNodeHealth ping s (k, q))) as (H1 & H2 & H3).
  rewrite H1, H2, H3. unfold checkNodeHealth. auto.
Qed.

Lemma assess_congr (s1 s2 : State) (p : ConnectedPeer) (b : bool) :
  JSMap.get (peerId (info p)) (healthMetrics s1) = JSMap.get (peerId (info p)) (healthMetrics s2) ->
  globalNodes s1 = globalNodes s2 ->
  assessNodeHealth s1 p b = assessNodeHealth s2 p b.
Proof.
  intros H1 H2. unfold assessNodeHealth, getNodeCompletionRate. rewrite H1, H2. reflexivity.
Qed.

Lemma get_checkNodeHealth_neq (ping : ConnectedPeer -> bool) (s : State) (k x : string)
    (q : ConnectedPeer) :
  peerId (info q) = k -> x <> k ->
  JSMap.get x (healthMetrics (checkNodeHealth ping s (k, q))) = JSMap.get x (healthMetrics s).
Proof.
  intros Hq Hx. unfold checkNodeHealth. cbn [set_healthMetrics healthMetrics].
  rewrite JSMapFacts.get_set_neq by exact Hx. rewrite Hq.
  destruct (JSMap.has k (healthMetrics s)); [apply JSMapFacts.get_set_neq; exact Hx | reflexivity].
Qed.

Lemma fold_check_other (ping : ConnectedPeer -> bool) :
  forall l s x,
  (forall k q, In (k, q) l -> peerId (info q) = k) -> ~ In x (map fst l) ->
  JSMap.get x (healthMetrics (fold_left (checkNodeHealth ping) l s)) =
  JSMap.get x (healthMetrics s).
Proof.
  induction l as [| [k q] l IH]; intros s x Hk Hx; cbn [fold_left]; [reflexivity |].
  rewrite IH.
  - apply get_checkNodeHealth_neq; [apply Hk; left; reflexivity |].
    intros E. apply Hx. left. symmetry. exact E.
  - intros k' q' H. apply Hk. right. exact H.
  - intros H. apply Hx. right. exact H.
Qed.

(** After one round of [checkGlobalNodesHealth], the health stored for a
    node is the assessment made from the health stored before the round. *)
Lemma fold_check_at (ping : ConnectedPeer -> bool) :
  forall l s pid p,
  NoDup (map fst l) -> (forall k q, In (k, q) l -> peerId (info q) = k) -> In (pid, p) l ->
  JSMap.get pid (healthMetrics (fold_left (checkNodeHealth ping) l s)) =
  Some (assessNodeHealth s p (ping p)).
Proof.
  induction l as [| [k q] l IH]; intros s pid p Hnd Hk Hin; cbn [fold_left]; [destruct Hin |].
  inversion Hnd as [| ? ? Hnk Hnd']; subst.
  assert (Hk' : forall k0 q0, In (k0, q0) l -> peerId (info q0) = k0)
    by (intros k0 q0 H; apply Hk; right; exact H).
  destruct Hin as [E | Hin].
  - injection E as <- <-.
    rewrite fold_check_other by assumption.
    unfold checkNodeHealth. cbn [set_healthMetrics healthMetrics].
    apply JSMapFacts.get_set_eq.
  - rewrite (IH _ pid p Hnd' Hk' Hin). f_equal. apply assess_congr.
    + assert (Hp : peerId (info p) = pid) by exact (Hk' _ _ Hin). rewrite Hp.
      apply get_checkNodeHealth_neq; [apply Hk; left; reflexivity |].
      intros ->. apply Hnk. apply (in_map fst) in Hin. exact Hin.
    + reflexivity.
Qed.

Lemma check_at (ping : ConnectedPeer -> bool) (s : State) (pid : string) (p : ConnectedPeer) :
  wf_nodes s -> JSMap.get pid (globalNodes s) = Some p ->
  JSMap.get pid (healthMetrics (checkGlobalNodesHealth ping s)) =
  Some (assessNodeHealth s p (ping p)).
Proof.
  intros [Hnd Hk] Hg. apply fold_check_at; [exact Hnd | exact Hk |].
  apply JSMapFacts.get_in. exact Hg.
Qed.

Lemma wf_nodes_check (ping : ConnectedPeer -> bool) (s : State) :
  wf_nodes s -> wf_nodes (checkGlobalNodesHealth ping s).
Proof.
  unfold wf_nodes, checkGlobalNodesHealth. rewrite (proj1 (fold_check_preserves ping _ s)).
  exact (fun H => H).
Qed.

Lemma failed_ping_resp (s : State) (p : ConnectedPeer) (r : Q) :
  (forall h, JSMap.get (peerId (info p)) (healthMetrics s) = Some h -> responsiveness h <= r) ->
  100 <= r ->
  responsiveness (assessNodeHealth s p false) <= r - 20.
Proof.
  intros Hh Hr. unfold assessNodeHealth. cbn [responsiveness].
  apply Q.max_lub; [lra |].
  destruct (JSMap.get (peerId (info p)) (healthMetrics s)) as [h |] eqn:E.
  - specialize (Hh h eq_refl). lra.
  - cbn. lra.
Qed.

Lemma failed_ping_resp_stored (s : State) (p : ConnectedPeer) (r : Q) :
  (forall h, JSMap.get (peerId (info p)) (healthMetrics s) = Some h -> responsiveness h <= r) ->
  (JSMap.get (peerId (info p)) (healthMetrics s) = None -> 100 <= r) ->
  0 <= r - 20 ->
  responsiveness (assessNodeHealth s p false) <= r - 20.
Proof.
  intros Hh Hn Hr. unfold assessNodeHealth. cbn [responsiveness].
  apply Q.max_lub; [exact Hr |].
  destruct (JSMap.get (peerId (info p)) (healthMetrics s)) as [h |] eqn:E.
  - specialize (Hh h eq_refl). lra.
  - specialize (Hn eq_refl). cbn. lra.
Qed.

(** A health-check round never changes the registered global nodes, the
    failover history or the task table: a node whose health check finds it
    failing is neither removed nor failed over. *)
Theorem checkGlobalNodesHealth_preserves (ping : ConnectedPeer -> bool) (s : State) :
  globalNodes (checkGlobalNodesHealth ping s) = globalNodes s /\
  failoverHistory (checkGlobalNodesHealth ping s) = failoverHistory s /\
  activeTasks (checkGlobalNodesHealth ping s) = activeTasks s.
Proof. apply fold_check_preserves. Qed.

(** In a registry where each node is stored once under its own peer id, a
    node whose stored responsiveness is at most 100 (or that has no health
    record) and that fails the ping in three consecutive health-check
    rounds is recorded as failing after the third round, with responsiveness
    at most 40 and the issue "Node not responding to ping"; it is then not
    healthy, and it is still registered. *)
Theorem three_failed_pings (ping1 ping2 ping3 : ConnectedPeer -> bool) (s : State)
    (pid : string) (p : ConnectedPeer)
    (Hwf : wf_nodes s) (Hp : JSMap.get pid (globalNodes s) = Some p)
    (H1 : ping1 p = false) (H2 : ping2 p = false) (H3 : ping3 p = false)
    (Hr : forall h, JSMap.get pid (healthMetrics s) = Some h -> responsiveness h <= 100) :
  let s3 := checkGlobalNodesHealth ping3 (checkGlobalNodesHealth ping2
              (checkGlobalNodesHealth ping1 s)) in
  exists h, JSMap.get pid (healthMetrics s3) = Some h /\ hstatus h = failing /\
    responsiveness h <= 40 /\ In "Node not responding to ping" (issues h) /\
    isNodeHealthy s3 pid = false /\ JSMap.get pid (globalNodes s3) = Some p.
Proof.
  cbv zeta.
  assert (Hpid : peerId (info p) = pid) by (apply (proj2 Hwf); apply JSMapFacts.get_in; exact Hp).
  set (s1 := checkGlobalNodesHealth ping1 s).
  set (s2 := checkGlobalNodesHealth ping2 s1).
  set (s3 := checkGlobalNodesHealth ping3 s2).
  assert (G1 : globalNodes s1 = globalNodes s) by apply fold_check_preserves.
  assert (G2 : globalNodes s2 = globalNodes s1) by apply fold_check_preserves.
  assert (G3 : globalNodes s3 = globalNodes s2) by apply fold_check_preserves.
  assert (W1 : wf_nodes s1) by (apply wf_nodes_check; exact Hwf).
  assert (W2 : wf_nodes s2) by (apply wf_nodes_check; exact W1).
  assert (E1 : JSMap.get pid (healthMetrics s1) = Some (assessNodeHealth s p false))
    by (rewrite <- H1; apply check_at; assumption).
  assert (E2 : JSMap.get pid (healthMetrics s2) = Some (assessNodeHealth s1 p false))
    by (rewrite <- H2; apply check_at; [exact W1 | rewrite G1; exact Hp]).
  assert (E3 : JSMap.get pid (healthMetrics s3) = Some (assessNodeHealth s2 p false))
    by (rewrite <- H3; apply check_at; [exact W2 | rewrite G2, G1; exact Hp]).
  assert (R1 : responsiveness (assessNodeHealth s p false) <= 100 - 20).
  { apply failed_ping_resp_stored; [rewrite Hpid; exact Hr | intros _; lra | lra]. }
  assert (R2 : responsiveness (assessNodeHealth s1 p false) <= 80 - 20).
  { apply failed_ping_resp_stored; [| rewrite Hpid, E1; discriminate | lra].
    rewrite Hpid, E1. intros h Hh. injection Hh as <-. lra. }
  assert (R3 : responsiveness (assessNodeHealth s2 p false) <= 60 - 20).
  { apply failed_ping_resp_stored; [| rewrite Hpid, E2; discriminate | lra].
    rewrite Hpid, E2. intros h Hh. injection Hh as <-. lra. }
  assert (Hst : hstatus (assessNodeHealth s2 p false) = failing).
  { unfold assessNodeHealth at 1. cbn [hstatus]. unfold determineNodeStatus.
    replace (Qlt_bool _ 50) with true; [reflexivity |].
    symmetry. unfold Qlt_bool. apply negb_true_iff.
    destruct (Qle_bool 50 _) eqn:E; [| reflexivity].
    apply Qle_bool_iff in E. unfold assessNodeHealth in R3. cbn [responsiveness] in R3. lra. }
  exists (assessNodeHealth s2 p false). split; [exact E3 |]. split; [exact Hst |].
  split; [lra |]. split.
  - unfold assessNodeHealth. cbn [issues]. apply in_or_app. right. left. reflexivity.
  - split.
    + unfold isNodeHealthy. rewrite E3, Hst. reflexivity.
    + rewrite G3, G2, G1. exact Hp.
Qed.

(** The completion rate a health check reads for a node: 0 for a node that
    is not registered; for counts of active and completed tasks that are not
    negative, 100 when no task is completed (also when the node has active
    tasks), and otherwise completed / (active + completed) * 100, a value in
    (0, 100]. *)
Theorem getNodeCompletionRate_range (s : State) (nodeId : string) :
  (JSMap.get nodeId (globalNodes s) = None -> getNodeCompletionRate s nodeId = 0) /\
  (forall node, JSMap.get nodeId (globalNodes s) = Some node ->
     let a := ns_activeTasks (cp_status node) in
     let c := ns_completedTasks (cp_status node) in
     0 <= a -> 0 <= c ->
     (c == 0 -> getNodeCompletionRate s nodeId = 100) /\
     (~ c == 0 -> getNodeCompletionRate s nodeId = c / (a + c) * 100 /\
                 0 < getNodeCompletionRate s nodeId <= 100)).
Proof.
  unfold getNodeCompletionRate. split; [intros -> ; reflexivity |].
  intros node Hn. rewrite Hn. cbv zeta.
  set (a := ns_activeTasks (cp_status node)). set (c := ns_completedTasks (cp_status node)).
  intros Ha Hc. split.
  - intros Hc0. destruct (Qeq_bool (a + c) 0); [reflexivity |].
    replace (Qeq_bool (c / (a + c) * 100) 0) with true; [reflexivity |].
    symmetry. apply Qeq_bool_iff. rewrite Hc0. unfold Qdiv. rewrite !Qmult_0_l. reflexivity.
  - intros Hc0.
    assert (Hcp : 0 < c) by (destruct (Qle_lt_or_eq _ _ Hc) as [H | H]; [exact H | elim Hc0; symmetry; exact H]).
    assert (Hs : 0 < a + c) by lra.
    assert (Hq0 : 0 < c / (a + c)) by (apply Qlt_shift_div_l; [exact Hs | lra]).
    assert (Hq1 : c / (a + c) <= 1) by (apply Qle_shift_div_r; [exact Hs | lra]).
    assert (Hr0 : 0 < c / (a + c) * 100) by (apply Qmult_lt_0_compat; [exact Hq0 | reflexivity]).
    assert (Hr1 : c / (a + c) * 100 <= 100).
    { apply Qle_trans with (1 * 100); [apply Qmult_le_compat_r; [exact Hq1 | discriminate] | apply Qle_refl]. }
    replace (Qeq_bool (a + c) 0) with false
      by (symmetry; apply not_true_iff_false; intros E; apply Qeq_bool_iff in E; lra).
    replace (Qeq_bool (c / (a + c) * 100) 0) with false
      by (symmetry; apply not_true_iff_false; intros E; apply Qeq_bool_iff in E; lra).
    split; [reflexivity | split; assumption].
Qed.

Lemma keys_set_in {V} (k x : string) (v : V) (m : JSMap.t V) :
  In x (JSMap.keys (JSMap.set k v m)) -> x = k \/ In x (JSMap.keys m).
Proof.
  unfold JSMap.keys. induction m as [| [k' v'] m IH]; simpl; intros H.
  - destruct H as [H | []]. left. symmetry. exact H.
  - destruct (String.eqb k k'); simpl in H.
    + right. exact H.
    + destruct H as [H | H]; [right; left; exact H |].
      destruct (IH H) as [E | E]; [left; exact E | right; right; exact E].
Qed.

Lemma keys_set_nodup {V} (k : string) (v : V) (m : JSMap.t V) :
  NoDup (JSMap.keys m) -> NoDup (JSMap.keys (JSMap.set k v m)).
Proof.
  induction m as [| [k' v'] m IH]; simpl; intros Hnd.
  - constructor; [intros [] | constructor].
  - inversion Hnd as [| ? ? Hn Hnd']; subst.
    destruct (String.eqb k k') eqn:E; simpl; constructor; [exact Hn | exact Hnd' | | exact (IH Hnd')].
    intros H. apply keys_set_in in H. destruct H as [H | H]; [| contradiction].
    subst k'. rewrite String.eqb_refl in E. discriminate.
Qed.

Lemma in_set {V} (k : string) (v : V) (m : JSMap.t V) (kq : string * V) :
  In kq (JSMap.set k v m) -> kq = (k, v) \/ In kq m.
Proof.
  induction m as [| [k' v'] m IH]; simpl; intros H.
  - destruct H as [H | []]. left. symmetry. exact H.
  - destruct (String.eqb k k') eqn:E.
    + apply String.eqb_eq in E. subst k'. destruct H as [H | H]; [left; symmetry; exact H |].
      right. right. exact H.
    + destruct H as [H | H]; [right; left; exact H |].
      destruct (IH H) as [H' | H']; [left; exact H' | right; right; exact H'].
Qed.

Lemma handleNodeFailover_final (sendOk : ConnectedPeer -> Message -> bool) (s : State)
    (nodeId : string) :
  (thrown (handleNodeFailover sendOk s nodeId) <> None ->
     final (handleNodeFailover sendOk s nodeId) = s) /\
  globalNodes (final (handleNodeFailover sendOk s nodeId)) = globalNodes s /\
  activeTasks (final (handleNodeFailover sendOk s nodeId)) = activeTasks s.
Proof.
  unfold handleNodeFailover.
  destruct (JSMap.get nodeId (globalNodes s)) as [node |]; [| simpl; auto].
  destruct (availableNodes s nodeId) as [| b rest]; [simpl; auto |].
  destruct (reassignAll sendOk s b (getNodeTasks s nodeId)) as [[e |] out]; simpl; auto.
  split; [intros H; elim H; reflexivity | auto].
Qed.

Lemma markOffline_spec (s : State) (nodeId : string) :
  globalNodes (markOffline s nodeId) = globalNodes s /\
  activeTasks (markOffline s nodeId) = activeTasks s /\
  JSMap.get nodeId (healthMetrics (markOffline s nodeId)) =
    match JSMap.get nodeId (healthMetrics s) with
    | Some h => Some {| hstatus := offline; responsiveness := responsiveness h;
                        taskCompletion := taskCompletion h;
                        issues := issues h ++ ["Node disconnected from network"] |}
    | None => None
    end.
Proof.
  unfold markOffline. destruct (JSMap.get nodeId (healthMetrics s)) eqn:E; simpl.
  - split; [reflexivity | split; [reflexivity | apply JSMapFacts.get_set_eq]].
  - rewrite E. auto.
Qed.

(** [addGlobalNode p] registers [p] under its peer id with a fresh, active
    health record: the node is healthy and listed by [getHealthyGlobalNodes]
    whatever health it had before (a failing node that is added again is
    active), and a registry with each node stored once under its own peer id
    stays so. *)
Theorem addGlobalNode_registers (s : State) (p : ConnectedPeer) :
  let s' := addGlobalNode s p in
  JSMap.get (peerId (info p)) (globalNodes s') = Some p /\
  isNodeHealthy s' (peerId (info p)) = true /\
  In (info p) (getHealthyGlobalNodes s') /\
  (wf_nodes s -> wf_nodes s').
Proof.
  cbv zeta.
  assert (Hh : isNodeHealthy (addGlobalNode s p) (peerId (info p)) = true)
    by (unfold isNodeHealthy, addGlobalNode; cbn [healthMetrics];
        rewrite JSMapFacts.get_set_eq; reflexivity).
  split; [apply JSMapFacts.get_set_eq |]. split; [exact Hh |]. split.
  - unfold getHealthyGlobalNodes. apply in_map. apply filter_In. split; [| exact Hh].
    apply (PoolFacts.in_values_of_get (peerId (info p))). apply JSMapFacts.get_set_eq.
  - intros [Hnd Hk]. split; [apply keys_set_nodup; exact Hnd |].
    intros k q Hin. apply in_set in Hin. destruct Hin as [E | Hin].
    + injection E as -> ->. reflexivity.
    + exact (Hk k q Hin).
Qed.

(** No method writes the coordinator's task table: it is empty in every
    reachable state. *)
Lemma reachable_no_tasks (s : State) : Reachable s -> activeTasks s = [].
Proof.
  induction 1 as [| s p _ IH | sendOk s nodeId _ IH | ping s _ IH].
  - reflexivity.
  - exact IH.
  - unfold removeGlobalNode. destruct (JSMap.get nodeId (globalNodes s)); [| exact IH].
    cbv zeta. destruct (markOffline_spec s nodeId) as (_ & M2 & _).
    destruct (handleNodeFailover_final sendOk (markOffline s nodeId) nodeId) as (_ & _ & F3).
    destruct (thrown (handleNodeFailover sendOk (markOffline s nodeId) nodeId)); simpl;
      rewrite F3, M2; exact IH.
  - unfold checkGlobalNodesHealth.
    rewrite (proj2 (proj2 (fold_check_preserves ping (globalNodes s) s))). exact IH.
Qed.

(** [removeGlobalNode nodeId] on a reachable coordinator does nothing for an
    unregistered node.  For a registered one it never throws, whatever the
    outcome of the socket writes: no task is attributed to the node, so
    nothing is reassigned.  The node and its health record are gone and the
    task table stays empty.  When another registered node is [active], the
    first such node is the backup and exactly one failover record, with no
    affected task, is appended; otherwise the history is unchanged. *)
Theorem removeGlobalNode_outcome (sendOk : ConnectedPeer -> Message -> bool) (s : State)
    (nodeId : string) :
  Reachable s ->
  (JSMap.get nodeId (globalNodes s) = None -> removeGlobalNode sendOk s nodeId = ret s []) /\
  (forall n, JSMap.get nodeId (globalNodes s) = Some n ->
     let r := removeGlobalNode sendOk s nodeId in
     thrown r = None /\
     JSMap.get nodeId (globalNodes (final r)) = None /\
     JSMap.get nodeId (healthMetrics (final r)) = None /\
     activeTasks (final r) = [] /\
     (availableNodes s nodeId = [] -> failoverHistory (final r) = failoverHistory s) /\
     (forall b rest, availableNodes s nodeId = b :: rest ->
        failoverHistory (final r) =
          (failoverHistory s ++
             [{| failedNodeId := nodeId; backupNodeId := peerId (info b); affectedTasks := [];
                 reason := "Node health degraded below acceptable threshold" |}])%list)).
Proof.
  intros Hr. pose proof (reachable_no_tasks s Hr) as Ht.
  unfold removeGlobalNode. split; [intros -> ; reflexivity |].
  intros n Hn. rewrite Hn. cbv zeta.
  assert (Hg1 : JSMap.get nodeId (globalNodes (markOffline s nodeId)) = Some n)
    by (rewrite CoordinatorFacts.markOffline_globalNodes; exact Hn).
  assert (Hnt : getNodeTasks (markOffline s nodeId) nodeId = []).
  { rewrite CoordinatorFacts.markOffline_getNodeTasks. unfold getNodeTasks. rewrite Ht.
    reflexivity. }
  unfold handleNodeFailover. rewrite Hg1, CoordinatorFacts.markOffline_availableNodes, Hnt.
  destruct (availableNodes s nodeId) as [| b rest] eqn:Ha; cbn.
  - split; [reflexivity |]. split; [apply JSMapFacts.get_delete_eq |].
    split; [apply JSMapFacts.get_delete_eq |].
    split; [rewrite CoordinatorFacts.markOffline_activeTasks; exact Ht |].
    split; [intros _; apply CoordinatorFacts.markOffline_failoverHistory |].
    intros b rest H; discriminate H.
  - split; [reflexivity |]. split; [apply JSMapFacts.get_delete_eq |].
    split; [apply JSMapFacts.get_delete_eq |].
    split; [rewrite CoordinatorFacts.markOffline_activeTasks; exact Ht |].
    split; [intros H; discriminate H |].
    intros b' rest' H. injection H as <- <-.
    rewrite CoordinatorFacts.markOffline_failoverHistory. reflexivity.
Qed.

Lemma removeGlobalNode_outcome_witness :
  thrown (removeGlobalNode (fun _ _ => false) Scenario.coord_start "A") = None /\
  failoverHistory (final (removeGlobalNode (fun _ _ => false) Scenario.coord_start "A")) =
    [{| failedNodeId := "A"; backupNodeId := "B"; affectedTasks := [];
        reason := "Node health degraded below acceptable threshold" |}].
Proof.
  assert (Hr : Reachable Scenario.coord_start)
    by (unfold Scenario.coord_start; apply reach_add, reach_add, reach_init).
  destruct (proj2 (removeGlobalNode_outcome (fun _ _ => false) Scenario.coord_start "A" Hr)
              (Scenario.mkpeer "A" global_node training "eu") eq_refl)
    as (H1 & _ & _ & _ & _ & H6).
  split; [exact H1 |].
  exact (H6 (Scenario.mkpeer "B" global_node training "eu") [] eq_refl).
Defined.

(** Witness: node "A" of [Scenario.coord_start], active with responsiveness
    100, fails three pings in a row. *)
Lemma three_failed_pings_witness :
  let s3 := checkGlobalNodesHealth (fun _ => false) (checkGlobalNodesHealth (fun _ => false)
              (checkGlobalNodesHealth (fun _ => false) Scenario.coord_start)) in
  isNodeHealthy s3 "A" = false.
Proof.
  assert (Hwf : wf_nodes Scenario.coord_start).
  { split.
    - vm_compute. repeat constructor; simpl; intuition discriminate.
    - intros k q H. vm_compute in H. destruct H as [E | [E | []]]; injection E as <- <-; reflexivity. }
  assert (Hr : forall h, JSMap.get "A" (healthMetrics Scenario.coord_start) = Some h ->
                 responsiveness h <= 100).
  { intros h Hh. vm_compute in Hh. injection Hh as <-. apply Qle_refl. }
  destruct (three_failed_pings (fun _ => false) (fun _ => false) (fun _ => false)
              Scenario.coord_start "A" (Scenario.mkpeer "A" global_node training "eu")
              Hwf eq_refl eq_refl eq_refl eq_refl Hr) as (h & _ & _ & _ & _ & H & _).
  exact H.
Defined.

End CoordinatorExtraFacts.
